(** * AIM3S video tooling: multi-camera synchronizer and interactive player

    A shallow embedding of [aux_tools.py] and [generate_video.py].

    Conventions of the embedding:
    - a [datetime] is its number of microseconds since [datetime.min]
      (Python datetimes have microsecond resolution), a [timedelta] is a
      number of microseconds;
    - the floats produced by [total_seconds()] are idealised as exact
      rationals ([Q]);
    - Python exceptions and non-termination are results of type [outcome];
    - the two output files of one experiment (the stitched video and the
      HDF5 alignment record next to it) form the [filesystem]. *)

From Stdlib Require Import ZArith QArith Qabs Qround List Bool Sorted Permutation
  Lia Lqa.
From Stdlib Require String.
Import String.StringSyntax.
From Equations Require Import Equations.
Import ListNotations.
Open Scope Z_scope.

(* ===================================================================== *)
(** ** Python results *)
(* ===================================================================== *)

Inductive exn : Type :=
| InfiniteLoopException   (* raise Exception("Infinite loop!! ...") *)
| IndexError
| ValueError
| ZeroDivisionError
| KeyError
| AssertionError
| OverflowError.

Inductive outcome (A : Type) : Type :=
| Ok (a : A)
| Raise (e : exn)
| Diverge.
Arguments Ok {A} a.
Arguments Raise {A} e.
Arguments Diverge {A}.

Definition bind {A B} (c : outcome A) (k : A -> outcome B) : outcome B :=
  match c with
  | Ok a => k a
  | Raise e => Raise e
  | Diverge => Diverge
  end.

Notation "x <- c ;; k" := (bind c (fun x => k))
  (at level 61, c at next level, right associativity).
Notation "' p <- c ;; k" := (bind c (fun p => k))
  (at level 61, p pattern, c at next level, right associativity).

Fixpoint mapM {A B} (f : A -> outcome B) (l : list A) : outcome (list B) :=
  match l with
  | [] => Ok []
  | a :: l' => b <- f a ;; bs <- mapM f l' ;; Ok (b :: bs)
  end.

(* ===================================================================== *)
(** ** aux_tools.py *)
(* ===================================================================== *)

#[local] Set Warnings "-notation-for-abbreviation".
Notation datetime := Z (only parsing).
Notation timedelta := Z (only parsing).

Definition datetime_min : datetime := 0.
(* 9999-12-31 23:59:59.999999 *)
Definition datetime_max : datetime := 315537897599999999.

Definition _min (a b : Z) : Z := if a <? b then a else b.
Definition _max (a b : Z) : Z := if a >? b then a else b.

(** [timedelta.total_seconds()] *)
Definition total_seconds (d : timedelta) : Q := d # 1000000.

(** Rounding of [timedelta(seconds=s)] to whole microseconds
    (round-half-even, as the datetime module does). *)
Definition round_half_even (q : Q) : Z :=
  let f := Qfloor q in
  match (q - inject_Z f ?= 1 # 2)%Q with
  | Lt => f
  | Gt => f + 1
  | Eq => if Z.even f then f else f + 1
  end.

Definition timedelta_seconds (s : Q) : timedelta :=
  round_half_even (s * 1000000).

(** The body of the [while t < t_end] loop of [date_range]; [None] when
    the loop is still running after [fuel] tests of its condition. *)
Fixpoint date_range_loop (fuel : nat) (t t_end : datetime) (t_delta : timedelta)
  : option (list datetime) :=
  match fuel with
  | O => None
  | S fuel' =>
    if t <? t_end
    then option_map (cons t) (date_range_loop fuel' (t + t_delta) t_end t_delta)
    else Some []
  end.

(** Number of condition tests that is enough whenever the loop ends. *)
Definition date_range_fuel (t_start t_end : datetime) (t_delta : timedelta) : nat :=
  Z.to_nat ((t_end - t_start) / t_delta) + 2.

Definition date_range (t_start t_end : datetime) (t_delta : timedelta)
  : outcome (list datetime) :=
  if Qeq_bool (total_seconds t_delta) 0
  then Raise InfiniteLoopException
  else match date_range_loop (date_range_fuel t_start t_end t_delta)
               t_start t_end t_delta with
       | Some l => Ok l
       | None => Diverge
       end.

(** [time_to_float(t_arr, t_ref)] with an explicit reference. *)
Definition time_to_float (t_arr : list datetime) (t_ref : datetime) : list Q :=
  map (fun t => total_seconds (t - t_ref)) t_arr.

(* ===================================================================== *)
(** ** numpy / scipy operations used by the synchronizer *)
(* ===================================================================== *)

(** [numpy.searchsorted(arr, key, side='left')]: the binary search of
    numpy's [binsearch], on the index interval [min_idx, max_idx).  (For
    an array of keys numpy starts the search of a key that is not below
    the previous one at the previous lower bound; on a sorted array that
    yields the same indices as a full search per key.) *)
Equations? binsearch_left (arr : list Q) (key : Q) (min_idx max_idx : nat) : nat
  by wf (max_idx - min_idx)%nat lt :=
  binsearch_left arr key min_idx max_idx with lt_dec min_idx max_idx => {
    | right _ := min_idx
    | left _ with Qlt_le_dec (nth (min_idx + (max_idx - min_idx) / 2) arr 0%Q) key => {
      | left _ :=
          binsearch_left arr key (min_idx + (max_idx - min_idx) / 2 + 1)%nat max_idx
      | right _ :=
          binsearch_left arr key min_idx (min_idx + (max_idx - min_idx) / 2)%nat } }.
Proof.
  all: change (fst (Nat.divmod (max_idx - min_idx) 1 0 1))
         with ((max_idx - min_idx) / 2)%nat;
       pose proof (Nat.div_lt (max_idx - min_idx) 2 ltac:(lia) ltac:(lia)); lia.
Qed.

Definition searchsorted_left (arr : list Q) (key : Q) : nat :=
  binsearch_left arr key 0 (length arr).

(** [ndarray.clip(lo, hi)] on one index. *)
Definition clip (i lo hi : Z) : Z := Z.min (Z.max i lo) hi.

(** [x_bds = x / 2.0; x_bds = x_bds[1:] + x_bds[:-1]] of
    [interp1d.__init__] for [kind='nearest'].  The floats of the program
    are exact rationals here.  A float midpoint can differ from the exact
    one in its last bit ([0.35 + 0.05 < 0.4]), so where a new abscissa is
    exactly half-way between two timestamps the program may store either
    neighbour; no statement below says which of two equally close frames is
    stored. *)
Definition x_bds (x : list Q) : list Q :=
  let h := map (fun a => a / 2)%Q x in
  map (fun p => fst p + snd p)%Q (combine (tl h) (removelast h)).

(** [interp1d._call_nearest] at one new abscissa: the index
    [searchsorted(x_bds, x_new, side='left').clip(0, len(x)-1)], then the
    value of [y] there. *)
Definition x_new_index (x : list Q) (x_new : Q) : Z :=
  clip (Z.of_nat (searchsorted_left (x_bds x) x_new)) 0 (Z.of_nat (length x) - 1).

Definition _call_nearest (x y : list Q) (x_new : Q) : Q :=
  nth (Z.to_nat (x_new_index x x_new)) y 0%Q.

(** [interp1d._check_bounds] with the default [bounds_error=True]. *)
Definition out_of_bounds (x : list Q) (x_new : Q) : bool :=
  match Qlt_le_dec x_new (hd 0%Q x), Qlt_le_dec (last x 0%Q) x_new with
  | left _, _ => true
  | _, left _ => true
  | _, _ => false
  end.

(** [interp1d(x, y, kind='nearest', copy=False, assume_sorted=True)(x_new)] *)
Definition interp1d_nearest (x y : list Q) (x_new : list Q) : outcome (list Q) :=
  if existsb (out_of_bounds x) x_new
  then Raise ValueError
  else Ok (map (_call_nearest x y) x_new).

(** [range(n)] as interp1d stores it (cast to float64). *)
Definition range_float (n : nat) : list Q :=
  map (fun i => inject_Z (Z.of_nat i)) (seq 0 n).

(** [.astype(np.uint16)] of a float: truncation, then reduction to 16 bits. *)
Definition astype_uint16 (q : Q) : Z :=
  (Z.quot (Qnum q) (Z.pos (Qden q))) mod 65536.

(* ===================================================================== *)
(** ** generate_video.py: the synchronizer (generate_multicam_video, l.27-46) *)
(* ===================================================================== *)

(** The loop over the four cameras that folds [t_latest_start] and
    [t_earliest_end]; indexing an empty timestamp array raises. *)
Fixpoint stream_bounds (camera_timestamps : list (list datetime))
         (t_latest_start t_earliest_end : datetime)
  : outcome (datetime * datetime) :=
  match camera_timestamps with
  | [] => Ok (t_latest_start, t_earliest_end)
  | t :: rest =>
    match t with
    | [] => Raise IndexError
    | t0 :: _ =>
      stream_bounds rest (_max t0 t_latest_start) (_min (last t t0) t_earliest_end)
    end
  end.

(** The least positive integer that Python refuses to convert to a float
    ([OverflowError: int too large to convert to float]): the integers
    from [2^1024 - 2^970] on round to [2^1024], beyond the largest
    double. *)
Definition float_overflow : Z := 2 ^ 1024 - 2 ^ 970.

(** [timedelta(seconds=1.0/video_fps)]: the division converts the integer
    [video_fps] to a float, which raises for an integer out of the range
    of the doubles, and then divides, which raises for 0. *)
Definition frame_period (video_fps : Z) : outcome timedelta :=
  if float_overflow <=? Z.abs video_fps then Raise OverflowError
  else if video_fps =? 0 then Raise ZeroDivisionError
  else Ok (timedelta_seconds (1 / inject_Z video_fps)).

(** One row of [frame_nums]: the body of [for t in camera_timestamps]. *)
Definition frame_nums_row (t_latest_start : datetime) (t_cam t : list datetime)
  : outcome (list Z) :=
  let to_float := fun t_arr => time_to_float t_arr t_latest_start in
  y <- interp1d_nearest (to_float t) (range_float (length t)) (to_float t_cam) ;;
  Ok (map astype_uint16 y).

Definition synchronize (camera_timestamps : list (list datetime)) (video_fps : Z)
  : outcome (list datetime * list (list Z)) :=
  ' (t_latest_start, t_earliest_end) <-
      stream_bounds camera_timestamps datetime_min datetime_max ;;
  t_delta <- frame_period video_fps ;;
  t_cam <- date_range t_latest_start t_earliest_end t_delta ;;
  frame_nums <- mapM (frame_nums_row t_latest_start t_cam) camera_timestamps ;;
  Ok (t_cam, frame_nums).

(* ===================================================================== *)
(** ** Python values, OpenCV streams, output files *)
(* ===================================================================== *)

Inductive image : Type :=
| Black                              (* np.zeros(...) *)
| Frame (cam idx : nat)              (* decoded frame [idx] of a camera file *)
| Tiled (a b c d : image).           (* resized 2x2 canvas *)

#[local] Set Warnings "-register-all".
Inductive pyval : Type :=
| PyBool (b : bool)
| PyNone
| PyArray (a : image)
| PyTuple (items : list pyval).

(** Python truth value: a tuple is true iff it is not empty; the truth
    value of an image array is a [ValueError]. *)
Definition truth (v : pyval) : outcome bool :=
  match v with
  | PyBool b => Ok b
  | PyNone => Ok false
  | PyArray _ => Raise ValueError
  | PyTuple items => Ok (negb (Nat.eqb (length items) 0))
  end.

(** [assert v, msg] *)
Definition py_assert (v : pyval) : outcome unit :=
  b <- truth v ;; if b then Ok tt else Raise AssertionError.

(** [arr[i]] with Python's negative indices. *)
Definition py_index {A} (l : list A) (i : Z) : outcome A :=
  let len := Z.of_nat (length l) in
  let j := if i <? 0 then i + len else i in
  if (0 <=? j) && (j <? len)
  then match nth_error l (Z.to_nat j) with
       | Some a => Ok a
       | None => Raise IndexError
       end
  else Raise IndexError.

Record VideoCapture : Type := {
  frames : list image;
  pos_frames : nat
}.

(** Modelled from the spec: [VideoCapture.set(CAP_PROP_POS_FRAMES, p)] is
    OpenCV's seek on the underlying stream, which is not part of the
    repository; a position past the valid bounds is clamped by the stream
    to the nearest valid position. *)
Definition VideoCapture_set (v : VideoCapture) (p : Z) : VideoCapture :=
  {| frames := frames v;
     pos_frames := Z.to_nat (clip p 0 (Z.of_nat (length (frames v)))) |}.

(** [int(VideoCapture.get(CAP_PROP_POS_FRAMES))] *)
Definition VideoCapture_get (v : VideoCapture) : Z := Z.of_nat (pos_frames v).

(** [VideoCapture.read(dst)]: returns the tuple [(retval, image)]; the
    destination buffer is overwritten only when a frame was decoded. *)
Definition VideoCapture_read (v : VideoCapture) (dst : image)
  : pyval * VideoCapture * image :=
  match nth_error (frames v) (pos_frames v) with
  | Some f => (PyTuple [PyBool true; PyArray f],
               {| frames := frames v; pos_frames := S (pos_frames v) |}, f)
  | None => (PyTuple [PyBool false; PyNone], v, dst)
  end.

(** The HDF5 file written next to the stitched video. *)
Record h5file : Type := {
  attr_t_start : option datetime;
  attr_t_end : option datetime;
  attr_fps : option Z;
  dataset_frame_nums : option (list (list Z))
}.

Definition h5_empty : h5file :=
  {| attr_t_start := None; attr_t_end := None; attr_fps := None;
     dataset_frame_nums := None |}.

(** The two output paths of one experiment folder. *)
Record filesystem : Type := {
  multicam_mp4 : option (list image);
  multicam_h5 : option h5file
}.

Record camera : Type := {
  t_str : list datetime;        (* camN_*.h5, dataset "t_str" *)
  mp4 : list image              (* camN_*.mp4 *)
}.

Record experiment : Type := {
  cam1 : camera; cam2 : camera; cam3 : camera; cam4 : camera
}.

Definition cameras (e : experiment) : list camera :=
  [cam1 e; cam2 e; cam3 e; cam4 e].

(* ===================================================================== *)
(** ** generate_video.py: generate_multicam_video *)
(* ===================================================================== *)

Record canvas : Type := { quad0 : image; quad1 : image; quad2 : image; quad3 : image }.

Record mc_state : Type := {
  videos_in : list VideoCapture;
  img : image;
  rgb_data : canvas;
  video_out : list image
}.

Definition no_video : VideoCapture := {| frames := []; pos_frames := 0 |}.

Fixpoint set_nth {A} (i : nat) (a : A) (l : list A) : list A :=
  match l, i with
  | [], _ => []
  | _ :: l', O => a :: l'
  | b :: l', S i' => b :: set_nth i' a l'
  end.

(** The [if i == 0: ... elif i == 3: ...] quadrant placement. *)
Definition place (i : nat) (im : image) (c : canvas) : canvas :=
  match i with
  | 0%nat => {| quad0 := im; quad1 := quad1 c; quad2 := quad2 c; quad3 := quad3 c |}
  | 1%nat => {| quad0 := quad0 c; quad1 := im; quad2 := quad2 c; quad3 := quad3 c |}
  | 2%nat => {| quad0 := quad0 c; quad1 := quad1 c; quad2 := im; quad3 := quad3 c |}
  | 3%nat => {| quad0 := quad0 c; quad1 := quad1 c; quad2 := quad2 c; quad3 := im |}
  | _ => c
  end.

(** [for i in range(len(frame_nums))]: seek, read, assert, place. *)
Fixpoint read_cameras (frame_nums : list (list Z)) (n : nat) (cams : list nat)
         (s : mc_state) : mc_state * outcome unit :=
  match cams with
  | [] => (s, Ok tt)
  | i :: rest =>
    let v := VideoCapture_set (nth i (videos_in s) no_video)
                              (nth n (nth i frame_nums []) 0) in
    let '(ok, v', img') := VideoCapture_read v (img s) in
    let s1 := {| videos_in := set_nth i v' (videos_in s); img := img';
                 rgb_data := rgb_data s; video_out := video_out s |} in
    match py_assert ok with
    | Ok _ =>
      read_cameras frame_nums n rest
        {| videos_in := videos_in s1; img := img';
           rgb_data := place i img' (rgb_data s1); video_out := video_out s1 |}
    | Raise ex => (s1, Raise ex)
    | Diverge => (s1, Diverge)
    end
  end.

(** [cv2.resize(rgb_data, None, img, ...); video_out.write(img)] *)
Definition write_composite (s : mc_state) : mc_state :=
  let c := rgb_data s in
  let out := Tiled (quad0 c) (quad1 c) (quad2 c) (quad3 c) in
  {| videos_in := videos_in s; img := out; rgb_data := c;
     video_out := video_out s ++ [out] |}.

(** The clip test of the frame loop. *)
Definition outside_clip (curr_t t_start t_end : Q) : bool :=
  (if Qlt_le_dec curr_t t_start then true else false)
  || ((if Qlt_le_dec 0 t_end then true else false)
      && (if Qlt_le_dec t_end curr_t then true else false)).

(** [for n,t in enumerate(t_cam)]; [keys n] is what [cv2.waitKey(1)]
    returns at output step [n]. *)
Fixpoint write_frames (frame_nums : list (list Z)) (t_cam0 : datetime)
         (t_start t_end : Q) (visualize : bool) (keys : nat -> Z)
         (n : nat) (ts : list datetime) (s : mc_state) : mc_state * outcome unit :=
  match ts with
  | [] => (s, Ok tt)
  | t :: rest =>
    let curr_t := total_seconds (t - t_cam0) in
    if outside_clip curr_t t_start t_end
    then write_frames frame_nums t_cam0 t_start t_end visualize keys (S n) rest s
    else
      match read_cameras frame_nums n (seq 0 (length frame_nums)) s with
      | (s1, Ok _) =>
        let s2 := write_composite s1 in
        if visualize && (keys n >? 0)
        then (s2, Ok tt)
        else write_frames frame_nums t_cam0 t_start t_end visualize keys (S n) rest s2
      | (s1, r) => (s1, r)
      end
  end.

Definition open_videos (e : experiment) : list VideoCapture :=
  map (fun c => {| frames := mp4 c; pos_frames := 0 |}) (cameras e).

Definition generate_multicam_video (e : experiment) (t_start t_end : Q)
           (video_fps : Z) (visualize : bool) (keys : nat -> Z) (overwrite : bool)
           (fs : filesystem) : filesystem * outcome unit :=
  if (match multicam_mp4 fs with Some _ => true | None => false end)
     && negb overwrite
  then (fs, Ok tt)
  else
    match synchronize (map t_str (cameras e)) video_fps with
    | Raise ex => (fs, Raise ex)
    | Diverge => (fs, Diverge)
    | Ok (t_cam, frame_nums) =>
      (* cv2.VideoWriter(...) and h5py.File(..., 'w') create both files *)
      match t_cam with
      | [] => ({| multicam_mp4 := Some []; multicam_h5 := Some h5_empty |},
               Raise IndexError)
      | t0 :: _ =>
        let h5 := {| attr_t_start := Some t0;
                     attr_t_end := Some (last t_cam t0);
                     attr_fps := Some video_fps;
                     dataset_frame_nums := Some frame_nums |} in
        let s0 := {| videos_in := open_videos e; img := Black;
                     rgb_data := {| quad0 := Black; quad1 := Black;
                                    quad2 := Black; quad3 := Black |};
                     video_out := [] |} in
        let '(s, r) := write_frames frame_nums t0 t_start t_end visualize keys
                                    0 t_cam s0 in
        ({| multicam_mp4 := Some (video_out s); multicam_h5 := Some h5 |}, r)
      end
    end.

(** The timeline as [generate_video] rebuilds it from the alignment file
    (l.104-105). *)
Definition reconstruct_t_cam (h5 : h5file) : outcome (list datetime) :=
  match attr_t_start h5, attr_t_end h5, attr_fps h5 with
  | Some t_start, Some t_end, Some fps =>
    t_delta <- frame_period fps ;; date_range t_start t_end t_delta
  | _, _, _ => Raise KeyError
  end.

(* ===================================================================== *)
(** ** generate_video.py: the interactive player loop of generate_video *)
(* ===================================================================== *)

Definition TIME_INCREMENT : timedelta := 100000.   (* timedelta(seconds=0.1) *)
Definition FRAME_INCREMENT : Z := 8.
Definition LEFT_RIGHT_MULTIPLIER : Z := 10.

Definition KEY_LEFT : Z := 63234.
Definition KEY_RIGHT : Z := 63235.
Definition KEY_UP : Z := 63232.
Definition KEY_DOWN : Z := 63233.
Definition KEY_ESC : Z := 27.
Definition ord_a : Z := 97.
Definition ord_b : Z := 98.
Definition ord_d : Z := 100.
Definition ord_n : Z := 110.
Definition ord_s : Z := 115.
Definition ord_w : Z := 119.
Definition ord_space : Z := 32.

(** The session state of the [while n < len(t_cam)-1] loop. *)
Record player : Type := {
  n : Z;
  is_paused : bool;
  refresh_weight : bool;
  do_skip_frames : bool;
  weight_to_cam_t_offset : datetime;
  video_in : VideoCapture;
  pending_keys : list Z;                 (* what cv2.waitKeyEx will return *)
  events : list (bool * datetime);       (* calls of cb_event_start_or_end *)
  written : list Z                       (* cursor at each video_out.write *)
}.

Definition with_n (p : player) (n' : Z) : player :=
  {| n := n'; is_paused := is_paused p; refresh_weight := refresh_weight p;
     do_skip_frames := do_skip_frames p;
     weight_to_cam_t_offset := weight_to_cam_t_offset p; video_in := video_in p;
     pending_keys := pending_keys p; events := events p; written := written p |}.

Definition with_flags (p : player) (paused refresh skip : bool) : player :=
  {| n := n p; is_paused := paused; refresh_weight := refresh;
     do_skip_frames := skip;
     weight_to_cam_t_offset := weight_to_cam_t_offset p; video_in := video_in p;
     pending_keys := pending_keys p; events := events p; written := written p |}.

Definition with_offset (p : player) (o : datetime) : player :=
  {| n := n p; is_paused := is_paused p; refresh_weight := refresh_weight p;
     do_skip_frames := do_skip_frames p;
     weight_to_cam_t_offset := o; video_in := video_in p;
     pending_keys := pending_keys p; events := events p; written := written p |}.

Definition with_video (p : player) (v : VideoCapture) : player :=
  {| n := n p; is_paused := is_paused p; refresh_weight := refresh_weight p;
     do_skip_frames := do_skip_frames p;
     weight_to_cam_t_offset := weight_to_cam_t_offset p; video_in := v;
     pending_keys := pending_keys p; events := events p; written := written p |}.

Definition with_keys (p : player) (ks : list Z) : player :=
  {| n := n p; is_paused := is_paused p; refresh_weight := refresh_weight p;
     do_skip_frames := do_skip_frames p;
     weight_to_cam_t_offset := weight_to_cam_t_offset p; video_in := video_in p;
     pending_keys := ks; events := events p; written := written p |}.

Definition with_event (p : player) (ev : bool * datetime) : player :=
  {| n := n p; is_paused := is_paused p; refresh_weight := refresh_weight p;
     do_skip_frames := do_skip_frames p;
     weight_to_cam_t_offset := weight_to_cam_t_offset p; video_in := video_in p;
     pending_keys := pending_keys p; events := events p ++ [ev];
     written := written p |}.

Definition with_written (p : player) : player :=
  {| n := n p; is_paused := is_paused p; refresh_weight := refresh_weight p;
     do_skip_frames := do_skip_frames p;
     weight_to_cam_t_offset := weight_to_cam_t_offset p; video_in := video_in p;
     pending_keys := pending_keys p; events := events p;
     written := written p ++ [n p] |}.

(** What one pass through the loop body decides. *)
Inductive control : Type :=
| Next (p : player)      (* back to the loop test (end of body or [continue]) *)
| Break (p : player).    (* [break] *)

(** A frame-increment command: move the cursor, request a skip and a
    refresh of the weight plot. *)
Definition skip_frames (p : player) (delta : Z) : player :=
  with_flags (with_n p (n p + delta)) (is_paused p) true true.

(** A time-offset command. *)
Definition shift_offset (p : player) (delta : timedelta) : player :=
  with_flags (with_offset p (weight_to_cam_t_offset p + delta)) (is_paused p) true
             (do_skip_frames p).

(** The end of the [if visualize:] block, reached when no [break] occurred. *)
Definition after_key (p : player) : player :=
  let p := with_flags p (is_paused p) (refresh_weight p || negb (is_paused p))
                      (do_skip_frames p) in
  if do_skip_frames p
  then let v := VideoCapture_set (video_in p) (n p) in
       with_n (with_video p v) (VideoCapture_get v)
  else p.

(** The [if k == ...: elif ...] chain on the key [k]; [cb] tells whether
    [cb_event_start_or_end] is not None. *)
Definition key_command (cb : bool) (t_cam : list datetime) (k : Z) (p : player)
  : outcome control :=
  let p := with_flags p (is_paused p) false false in
  if k =? KEY_LEFT then
    Ok (Next (after_key (skip_frames p (- (LEFT_RIGHT_MULTIPLIER * FRAME_INCREMENT)))))
  else if k =? KEY_RIGHT then
    Ok (Next (after_key (skip_frames p (LEFT_RIGHT_MULTIPLIER * FRAME_INCREMENT))))
  else if k =? KEY_UP then
    Ok (Next (after_key (skip_frames p FRAME_INCREMENT)))
  else if k =? KEY_DOWN then
    Ok (Next (after_key (skip_frames p (- FRAME_INCREMENT))))
  else if k =? ord_a then
    Ok (Next (after_key (shift_offset p (- (LEFT_RIGHT_MULTIPLIER * TIME_INCREMENT)))))
  else if k =? ord_d then
    Ok (Next (after_key (shift_offset p (LEFT_RIGHT_MULTIPLIER * TIME_INCREMENT))))
  else if k =? ord_w then
    Ok (Next (after_key (shift_offset p (- TIME_INCREMENT))))
  else if k =? ord_s then
    Ok (Next (after_key (shift_offset p TIME_INCREMENT)))
  else if (k =? ord_b) && cb then
    t <- py_index t_cam (n p) ;; Ok (Next (after_key (with_event p (true, t))))
  else if (k =? ord_n) && cb then
    t <- py_index t_cam (n p) ;; Ok (Next (after_key (with_event p (false, t))))
  else if k =? ord_space then
    Ok (Next (after_key (with_flags p (negb (is_paused p)) (refresh_weight p)
                                    (do_skip_frames p))))
  else if (k =? KEY_ESC) || ((k >? 0) && negb cb) then
    Ok (Break p)
  else Ok (Next (after_key p)).

(** [cv2.waitKeyEx(1 if not is_paused else 0)]: the next pending key; with
    no key pending the 1 ms poll returns -1 and the blocking wait never
    returns. *)
Definition waitKeyEx (p : player) : outcome (Z * player) :=
  match pending_keys p with
  | k :: ks => Ok (k, with_keys p ks)
  | [] => if is_paused p then Diverge else Ok (-1, p)
  end.

Record options : Type := {
  opt_t_start : Q;
  opt_t_end : Q;
  opt_visualize : bool;
  opt_save_video : bool;
  opt_cb : bool               (* cb_event_start_or_end is not None *)
}.

(** The clip test of the player loop (l.177). *)
Definition player_outside_clip (curr_t t_start t_end : Q) : bool :=
  ((if Qlt_le_dec 0 t_start then true else false)
   && (if Qlt_le_dec curr_t t_start then true else false))
  || ((if Qlt_le_dec 0 t_end then true else false)
      && (if Qlt_le_dec t_end curr_t then true else false)).

(** One pass through the body of [while n < len(t_cam)-1]. *)
Definition loop_body (o : options) (t_cam : list datetime) (p : player)
  : outcome control :=
  p1 <- (if negb (is_paused p) || do_skip_frames p
         then let '(ok, v, _) := VideoCapture_read (video_in p) Black in
              _ <- py_assert ok ;;
              Ok (with_video (with_n p (n p + 1)) v)
         else Ok p) ;;
  skip <- (if refresh_weight p1
           then t <- py_index t_cam (n p1) ;;
                Ok (player_outside_clip
                      (total_seconds (t - weight_to_cam_t_offset p1))
                      (opt_t_start o) (opt_t_end o))
           else Ok false) ;;
  if (skip : bool) then Ok (Next p1)
  else
    let p2 := if opt_save_video o then with_written p1 else p1 in
    if opt_visualize o
    then ' (k, p3) <- waitKeyEx p2 ;; key_command (opt_cb o) t_cam k p3
    else Ok (Next p2).

(** The loop itself; [Diverge] when it is still running after [fuel] passes. *)
Fixpoint play (fuel : nat) (o : options) (t_cam : list datetime) (p : player)
  : outcome player :=
  match fuel with
  | O => Diverge
  | S fuel' =>
    if n p <? Z.of_nat (length t_cam) - 1
    then c <- loop_body o t_cam p ;;
         match c with
         | Next p' => play fuel' o t_cam p'
         | Break p' => Ok p'
         end
    else Ok p
  end.

(** The state in which [generate_video] enters the loop. *)
Definition player_init (video : list image) (weight_t0 : datetime) (keys : list Z)
  : player :=
  {| n := -1; is_paused := false; refresh_weight := true; do_skip_frames := false;
     weight_to_cam_t_offset := weight_t0 + 13000000;
     video_in := {| frames := video; pos_frames := 0 |};
     pending_keys := keys; events := []; written := [] |}.

(* ===================================================================== *)
(** ** Notions used in the statements, and example inputs *)
(* ===================================================================== *)

(** Number of points [t_start + k * t_delta] below [t_end], for a
    positive step. *)
Definition timeline_length (t_start t_end : datetime) (t_delta : timedelta) : nat :=
  Z.to_nat ((t_end - t_start + t_delta - 1) / t_delta).

Definition sorted_nth (l : list Q) : Prop :=
  forall i j, (i <= j < length l)%nat -> (nth i l 0 <= nth j l 0)%Q.

(** The index that [interp1d(..., kind='nearest')] computes for the camera
    timestamps [t] at the virtual time [v], both taken relative to
    [t_ref], before the cast to 16 bits. *)
Definition nearest_frame (t_ref : datetime) (t : list datetime) (v : datetime) : Z :=
  x_new_index (time_to_float t t_ref) (total_seconds (v - t_ref)).

Definition nondecreasing (t : list datetime) : Prop :=
  forall i j, (i <= j < length t)%nat -> nth i t 0 <= nth j t 0.

Definition valid_datetime (t : datetime) : Prop :=
  datetime_min <= t <= datetime_max.

(** A timestamp that a step of at most one second does not carry past
    [datetime.max] (where [t += t_delta] raises [OverflowError]). *)
Definition steppable (t : datetime) : Prop :=
  datetime_min <= t <= datetime_max - 1000000.



Definition row_nondecreasing (row : list Z) : Prop :=
  forall a b, (a <= b < length row)%nat -> nth a row 0 <= nth b row 0.

(** [n] timestamps from [t], one every [d] microseconds. *)
Fixpoint arith_seq (n : nat) (t : datetime) (d : timedelta) : list datetime :=
  match n with
  | O => []
  | S n' => t :: arith_seq n' (t + d) d
  end.

(** The two cameras of the end-to-end example of the specification. *)
Definition camA : list datetime := [0; 1000000; 2000000].
Definition camB : list datetime := [100000; 1100000; 2100000].


(** Four frames at 25 frames per second. *)
Definition cam_short : list datetime := arith_seq 4 0 40000.

(** 65600 frames at 25 frames per second (43 min 44 s), and a camera
    that recorded only the last three seconds of that period. *)
Definition cam_long : list datetime := arith_seq (Z.to_nat 65600) 0 40000.
Definition cam_late : list datetime := arith_seq 75 2621000000 40000.

Definition spec_cams : list (list datetime) := [camA; camB; camA; camB].
Definition spec_t_cam : list datetime := [100000; 1100000].
Definition spec_frame_nums : list (list Z) := [[0; 1]; [0; 1]; [0; 1]; [0; 1]].

Definition fs_empty : filesystem := {| multicam_mp4 := None; multicam_h5 := None |}.

(** A camera file pair whose video holds one decodable frame per timestamp. *)
Definition camera_files (c : nat) (t : list datetime) : camera :=
  {| t_str := t; mp4 := map (Frame c) (seq 0 (length t)) |}.

Definition spec_experiment : experiment :=
  {| cam1 := camera_files 0 camA; cam2 := camera_files 1 camB;
     cam3 := camera_files 2 camA; cam4 := camera_files 3 camB |}.

(** Cameras 1 and 3 stop at the instant at which cameras 2 and 4 start. *)
Definition zero_overlap_experiment : experiment :=
  {| cam1 := camera_files 0 [0; 1000000];
     cam2 := camera_files 1 [1000000; 2000000];
     cam3 := camera_files 2 [0; 1000000];
     cam4 := camera_files 3 [1000000; 2000000] |}.

(** The alignment file that the run on [spec_experiment] at 1 frame per
    second leaves. *)
Definition spec_alignment : h5file :=
  {| attr_t_start := Some 100000; attr_t_end := Some 1100000; attr_fps := Some 1;
     dataset_frame_nums := Some spec_frame_nums |}.

(** The two files that the interrupted run on [zero_overlap_experiment]
    leaves behind. *)
Definition zero_overlap_leftover : filesystem :=
  {| multicam_mp4 := Some []; multicam_h5 := Some h5_empty |}.

(** Like [spec_experiment], but only the first frame of the video of
    camera 1 can be decoded. *)
Definition truncated_experiment : experiment :=
  {| cam1 := {| t_str := camA; mp4 := [Frame 0 0] |};
     cam2 := camera_files 1 camB;
     cam3 := camera_files 2 camA; cam4 := camera_files 3 camB |}.

Definition no_key : nat -> Z := fun _ => -1.

(** The cursor displacement of the four frame-increment commands. *)
Definition frame_step (k : Z) : option Z :=
  if k =? KEY_LEFT then Some (- (LEFT_RIGHT_MULTIPLIER * FRAME_INCREMENT))
  else if k =? KEY_RIGHT then Some (LEFT_RIGHT_MULTIPLIER * FRAME_INCREMENT)
  else if k =? KEY_UP then Some FRAME_INCREMENT
  else if k =? KEY_DOWN then Some (- FRAME_INCREMENT)
  else None.

(** Whether the key [k] ends the loop. *)
Definition exits (cb : bool) (t_cam : list datetime) (k : Z) (p : player) : bool :=
  match key_command cb t_cam k p with
  | Ok (Break _) => true
  | _ => false
  end.

(** The keys that have a command of their own; [b] and [n] only with an
    event callback. *)
Definition command_keys : list Z :=
  [KEY_LEFT; KEY_RIGHT; KEY_UP; KEY_DOWN; ord_a; ord_d; ord_w; ord_s; ord_space].
Definition event_keys : list Z := [ord_b; ord_n].

Definition recognized (cb : bool) (k : Z) : bool :=
  existsb (Z.eqb k) command_keys || (cb && existsb (Z.eqb k) event_keys).

(** The key table in the words of the specification: escape or any
    unrecognized key exits, and that exit is suppressed when an event
    callback is configured. *)
Definition key_table_exits (cb : bool) (k : Z) : bool :=
  negb cb && ((k =? KEY_ESC) || ((k >? 0) && negb (recognized cb k))).

(* ===================================================================== *)
(** ** Further code of the two files *)
(* ===================================================================== *)

(** Like [spec_experiment], but camera 3 recorded nothing. *)
Definition empty_camera_experiment : experiment :=
  {| cam1 := camera_files 0 camA; cam2 := camera_files 1 camB;
     cam3 := camera_files 2 []; cam4 := camera_files 3 camB |}.



(** The columns [(n, t)] of a timeline, counted from [n0], whose time
    since [t0] lies in the clip window. *)
Definition columns_in_window (t0 : datetime) (t_start t_end : Q) (n0 : nat)
           (ts : list datetime) : list (nat * datetime) :=
  filter (fun nt => negb (outside_clip (total_seconds (snd nt - t0)) t_start t_end))
         (combine (seq n0 (length ts)) ts).

(** Whether the player composes the frame at cursor [k] for the time
    offset [offset] (the clip test of l.177, negated). *)
Definition shown_in_player (o : options) (t_cam : list datetime) (offset : datetime)
           (k : nat) : bool :=
  negb (player_outside_clip (total_seconds (nth k t_cam 0 - offset))
                            (opt_t_start o) (opt_t_end o)).

(** The change of the time offset made by the four offset commands. *)
Definition offset_step (k : Z) : option timedelta :=
  if k =? ord_a then Some (- (LEFT_RIGHT_MULTIPLIER * TIME_INCREMENT))
  else if k =? ord_d then Some (LEFT_RIGHT_MULTIPLIER * TIME_INCREMENT)
  else if k =? ord_w then Some (- TIME_INCREMENT)
  else if k =? ord_s then Some TIME_INCREMENT
  else None.

(** The states of a playback that nobody touches. *)
Definition untouched (video : list image) (offset : datetime) (k : nat) (pos : nat)
           (w : list Z) : player :=
  {| n := Z.of_nat k - 1; is_paused := false; refresh_weight := true;
     do_skip_frames := false; weight_to_cam_t_offset := offset;
     video_in := {| frames := video; pos_frames := pos |};
     pending_keys := []; events := []; written := w |}.

(** An interactive session over 31 timeline entries (one per second from
    20 s on) that is clipped to start at 1 s: the user pauses on the first
    frame, raises the time offset seven times by one second and then
    presses escape. *)
Definition clipped_session : options :=
  {| opt_t_start := 1; opt_t_end := -1; opt_visualize := true;
     opt_save_video := false; opt_cb := false |}.
Definition session_t_cam : list datetime := arith_seq 31 20000000 1000000.
Definition session_keys : list Z :=
  [ord_space; ord_d; ord_d; ord_d; ord_d; ord_d; ord_d; ord_d; KEY_ESC].

(** The state of that session after its eighth pass: escape is pending. *)
Definition hung_player : player :=
  {| n := 0; is_paused := true; refresh_weight := true; do_skip_frames := false;
     weight_to_cam_t_offset := 20000000;
     video_in := {| frames := map (Frame 0) (seq 0 31); pos_frames := 1 |};
     pending_keys := [KEY_ESC]; events := []; written := [] |}.

(* ===================================================================== *)
(** ** generate_video.py: generate_video around its loop *)
(* ===================================================================== *)

(** How a call of [generate_video] ends.  [GvOSError] is the error of
    [h5py.File(name, 'r')] on a file that does not exist. *)
Inductive gv_result : Type :=
| GvReturn (p : player)
| GvRaise (ex : exn)
| GvOSError
| GvDiverge.


(** Lines 99-111: the video and the timeline that are played.  With a
    negative [camera_id] the stitched video is generated if it is missing
    (default arguments: no visualization, no overwrite) and the timeline
    is rebuilt from the alignment file; otherwise the files of camera
    [camera_id] are opened. *)
Definition open_source (e : experiment) (camera_id : Z) (o : options) (video_fps : Z)
           (fs : filesystem)
  : filesystem * (gv_result + list image * list datetime) :=
  if camera_id <? 0
  then
    match generate_multicam_video e (opt_t_start o) (opt_t_end o) video_fps
                                  false no_key false fs with
    | (fs1, Raise ex) => (fs1, inl (GvRaise ex))
    | (fs1, Diverge) => (fs1, inl GvDiverge)
    | (fs1, Ok _) =>
      let video := match multicam_mp4 fs1 with Some v => v | None => [] end in
      match multicam_h5 fs1 with
      | None => (fs1, inl GvOSError)
      | Some h5 =>
        match reconstruct_t_cam h5 with
        | Ok t_cam => (fs1, inr (video, t_cam))
        | Raise ex => (fs1, inl (GvRaise ex))
        | Diverge => (fs1, inl GvDiverge)
        end
      end
    end
  else
    match (if camera_id =? 0 then None
           else nth_error (cameras e) (Z.to_nat (camera_id - 1))) with
    | None => (fs, inl GvOSError)
    | Some c => (fs, inr (mp4 c, t_str c))
    end.

(** [generate_video]: the source is opened, the first weight timestamp
    fixes the initial time offset ([weight_t[0]] raises on an empty
    series), and the loop runs on the keys of the user.  [weight_t] is the
    series of timestamps read from the weights file; the weight values
    and the plot drawn from them have no part in the cursor, the offset or
    the files, and are left out. *)
Definition generate_video (e : experiment) (camera_id : Z) (weight_t : list datetime)
           (o : options) (video_fps : Z) (keys : list Z) (fuel : nat)
           (fs : filesystem) : filesystem * gv_result :=
  match open_source e camera_id o video_fps fs with
  | (fs1, inl r) => (fs1, r)
  | (fs1, inr (video, t_cam)) =>
    match weight_t with
    | [] => (fs1, GvRaise IndexError)
    | weight_t0 :: _ =>
      match play fuel o t_cam (player_init video weight_t0 keys) with
      | Ok p => (fs1, GvReturn p)
      | Raise ex => (fs1, GvRaise ex)
      | Diverge => (fs1, GvDiverge)
      end
    end
  end.

(** A session with the defaults of [generate_video]: no clip window, no
    saving, no callback. *)
Definition plain_session : options :=
  {| opt_t_start := 0; opt_t_end := -1; opt_visualize := true;
     opt_save_video := false; opt_cb := false |}.
Definition session_weight_t : list datetime := [5000000].

(** A player of that session, paused on frame 3 with four offset keys and
    the space bar still to come. *)
Definition paused_player : player :=
  {| n := 3; is_paused := true; refresh_weight := false; do_skip_frames := false;
     weight_to_cam_t_offset := 18000000;
     video_in := {| frames := map (Frame 0) (seq 0 31); pos_frames := 4 |};
     pending_keys := [ord_a; ord_w; ord_d; ord_d; ord_space];
     events := []; written := [] |}.

(* ===================================================================== *)
(** ** Further code of aux_tools.py *)
(* ===================================================================== *)

(** [time_to_float(t_arr)] with the default [t_ref=None]: the reference
    is [t_arr[0]], which raises on an empty series. *)
Definition time_to_float_default (t_arr : list datetime) : outcome (list Q) :=
  match t_arr with
  | [] => Raise IndexError
  | t0 :: _ => Ok (time_to_float t_arr t0)
  end.

(** [get_nonempty_input]: standard input is the list of the lines still to
    come; [input] takes the first one and raises [EOFError] when there is
    none.  The result records the line returned, the lines left unread
    and the number of prompts shown. *)
Inductive input_result : Type :=
| Entered (out : String.string) (unread : list String.string) (prompts : nat)
| EOFError.

Fixpoint input_loop (out : String.string) (stdin : list String.string) (prompts : nat)
  : input_result :=
  if (String.length out <? 1)%nat
  then match stdin with
       | [] => EOFError
       | line :: stdin' => input_loop line stdin' (S prompts)
       end
  else Entered out stdin prompts.

Definition get_nonempty_input (stdin : list String.string) : input_result :=
  input_loop String.EmptyString stdin 0.

(** [HSVthreshHelper]: the six slider values. *)
Record hsv_limits : Type := {
  H_min : Z; H_max : Z;
  S_min : Z; S_max : Z;
  V_min : Z; V_max : Z
}.

(** Subtraction of a Python int from a [uint8] array element. *)
Definition uint8_sub (a b : Z) : Z := (a - b) mod 256.

(** [cv2.inRange] on one channel. *)
Definition inRange (lo x hi : Z) : bool := (lo <=? x) && (x <=? hi).

(** l.208: [h_offset = self.H_max+1 if self.H_min > self.H_max else 0]. *)
Definition h_offset (l : hsv_limits) : Z :=
  if H_min l >? H_max l then H_max l + 1 else 0.

(** l.209: [np.mod(hsv[:,:,0] - h_offset, 180) if h_offset > 0 else
    hsv[:,:,0]], for one pixel of hue [h]. *)
Definition hsv_offset (l : hsv_limits) (h : Z) : Z :=
  if h_offset l >? 0 then (uint8_sub h (h_offset l)) mod 180 else h.

(** l.210: the hue channel of the mask. *)
Definition hue_selected (l : hsv_limits) (h : Z) : bool :=
  inRange (H_min l - h_offset l) (hsv_offset l h) ((H_max l - h_offset l) mod 180).

(** l.210: the mask of one pixel [(h, s, v)]. *)
Definition mask (l : hsv_limits) (px : Z * Z * Z) : bool :=
  let '(h, s, v) := px in
  hue_selected l h && inRange (S_min l) s (S_max l) && inRange (V_min l) v (V_max l).

(** The red range of the sliders: hues 170..179 and 0..10. *)
Definition red_limits : hsv_limits :=
  {| H_min := 170; H_max := 10; S_min := 0; S_max := 255; V_min := 0; V_max := 255 |}.


(* ===================================================================== *)
(** * Properties *)
(* ===================================================================== *)

(** ** The outcome monad *)

Lemma bind_Ok_inv {A B} (c : outcome A) (k : A -> outcome B) (b : B) :
  bind c k = Ok b -> exists a, c = Ok a /\ k a = Ok b.
Proof.
  destruct c as [a| |]; simpl; intros H; try discriminate.
  exists a; auto.
Qed.

Lemma mapM_Ok_nth {A B} (f : A -> outcome B) (l : list A) (r : list B) :
  mapM f l = Ok r ->
  length r = length l /\
  forall i a, nth_error l i = Some a ->
              exists b, nth_error r i = Some b /\ f a = Ok b.
Proof.
  revert r; induction l as [|a l IH]; simpl; intros r H.
  - injection H as <-. split; [reflexivity|]. intros [|i] ? E; discriminate.
  - apply bind_Ok_inv in H as (b & Hb & H).
    apply bind_Ok_inv in H as (bs & Hbs & H). injection H as <-.
    destruct (IH _ Hbs) as [Hlen Hnth]. split; [simpl; congruence|].
    intros [|i] a' E; simpl in *.
    + injection E as <-. eauto.
    + eauto.
Qed.

(** ** date_range *)

Lemma timeline_length_step t t_end d :
  0 < d -> t < t_end ->
  timeline_length t t_end d = S (timeline_length (t + d) t_end d).
Proof.
  intros Hd Hlt. unfold timeline_length.
  replace (t_end - t + d - 1) with ((t_end - (t + d) + d - 1) + 1 * d) by lia.
  rewrite Z.div_add by lia.
  assert (0 <= (t_end - (t + d) + d - 1) / d) by (apply Z.div_pos; lia).
  lia.
Qed.

Lemma timeline_length_done t t_end d :
  0 < d -> t_end <= t -> timeline_length t t_end d = 0%nat.
Proof.
  intros Hd Hle. unfold timeline_length.
  assert ((t_end - t + d - 1) / d <= 0).
  { assert ((t_end - t + d - 1) / d < 1); [|lia].
    apply Z.div_lt_upper_bound; lia. }
  lia.
Qed.

Lemma date_range_loop_enough fuel t t_end d :
  0 < d -> (timeline_length t t_end d < fuel)%nat ->
  exists l, date_range_loop fuel t t_end d = Some l /\
            length l = timeline_length t t_end d /\
            forall k, (k < length l)%nat -> nth k l 0 = t + Z.of_nat k * d.
Proof.
  intros Hd. revert t. induction fuel as [|fuel IH]; intros t Hf; [lia|].
  simpl. destruct (Z.ltb_spec t t_end) as [Hlt|Hge].
  - rewrite (timeline_length_step _ _ _ Hd Hlt) in *.
    destruct (IH (t + d) ltac:(lia)) as (l & -> & Hlen & Hnth).
    exists (t :: l); simpl. repeat split; [congruence|].
    intros [|k] Hk; [lia|]. rewrite Hnth by lia. lia.
  - exists []. rewrite timeline_length_done by lia. repeat split.
    simpl; intros; lia.
Qed.

Lemma timeline_length_fuel t_start t_end d :
  0 < d -> (timeline_length t_start t_end d < date_range_fuel t_start t_end d)%nat.
Proof.
  intros Hd. unfold timeline_length, date_range_fuel.
  assert ((t_end - t_start + d - 1) / d <= (t_end - t_start) / d + 1).
  { replace (t_end - t_start + d - 1) with ((t_end - t_start - 1) + 1 * d) by lia.
    rewrite Z.div_add by lia.
    assert ((t_end - t_start - 1) / d <= (t_end - t_start) / d)
      by (apply Z.div_le_mono; lia).
    lia. }
  lia.
Qed.

Lemma total_seconds_zero d : Qeq_bool (total_seconds d) 0 = (d =? 0).
Proof.
  destruct (Z.eqb_spec d 0) as [->|Hn]; [reflexivity|].
  destruct (Qeq_bool (total_seconds d) 0) eqn:E; [|reflexivity].
  apply Qeq_bool_iff in E. unfold Qeq, total_seconds in E; simpl in E. lia.
Qed.

(** For a positive step the generator ends, and yields exactly the points
    [t_start + k * t_delta] that are below [t_end]. *)
Lemma date_range_positive t_start t_end d :
  0 < d ->
  exists l, date_range t_start t_end d = Ok l /\
            length l = timeline_length t_start t_end d /\
            forall k, (k < length l)%nat -> nth k l 0 = t_start + Z.of_nat k * d.
Proof.
  intros Hd. unfold date_range. rewrite total_seconds_zero.
  destruct (Z.eqb_spec d 0); [lia|].
  destruct (date_range_loop_enough _ t_start t_end d Hd
              (timeline_length_fuel t_start t_end d Hd)) as (l & -> & H).
  eauto.
Qed.

Lemma timeline_length_lt t_start t_end d k :
  0 < d ->
  (k < timeline_length t_start t_end d)%nat <-> t_start + Z.of_nat k * d < t_end.
Proof.
  intros Hd. unfold timeline_length.
  set (a := t_end - t_start + d - 1).
  split; intros H.
  - assert (Hq : Z.of_nat k + 1 <= a / d) by lia.
    assert (d * (a / d) <= a) by (apply Z.mul_div_le; lia).
    assert (d * (Z.of_nat k + 1) <= d * (a / d)) by (apply Z.mul_le_mono_nonneg_l; lia).
    unfold a in *. lia.
  - assert (Z.of_nat k + 1 <= a / d); [|lia].
    apply Z.div_le_lower_bound; [lia|]. unfold a. lia.
Qed.

Lemma date_range_loop_negative fuel t t_end d :
  d < 0 -> t < t_end -> date_range_loop fuel t t_end d = None.
Proof.
  intros Hd. revert t. induction fuel as [|fuel IH]; intros t Hlt; [reflexivity|].
  simpl. destruct (Z.ltb_spec t t_end); [|lia].
  rewrite IH by lia. reflexivity.
Qed.

(** What [date_range] can return: it raises on a zero step, never ends on
    a negative step over a non-empty range, and otherwise yields the
    points of the half-open range. *)
Lemma date_range_Ok_inv t_start t_end d l :
  date_range t_start t_end d = Ok l ->
  d <> 0 /\
  (d < 0 -> l = []) /\
  (0 < d -> length l = timeline_length t_start t_end d /\
            forall k, (k < length l)%nat -> nth k l 0 = t_start + Z.of_nat k * d).
Proof.
  intros H. destruct (Z.lt_trichotomy d 0) as [Hd|[->|Hd]].
  - split; [lia|]. split; [|lia]. intros _.
    unfold date_range in H. rewrite total_seconds_zero in H.
    destruct (Z.eqb_spec d 0); [lia|].
    destruct (Z.lt_ge_cases t_start t_end) as [Hlt|Hge].
    + rewrite date_range_loop_negative in H by assumption. discriminate.
    + unfold date_range_fuel in H. rewrite Nat.add_comm in H. simpl in H.
      destruct (Z.ltb_spec t_start t_end); [lia|]. congruence.
  - unfold date_range in H. rewrite total_seconds_zero in H. discriminate.
  - split; [lia|]. split; [lia|]. intros _.
    destruct (date_range_positive t_start t_end d Hd) as (l' & E & Hl).
    rewrite E in H. injection H as <-. exact Hl.
Qed.

(** ** The bounds of the common coverage *)

Lemma _max_spec a b : _max a b = Z.max a b.
Proof. unfold _max. destruct (Z.gtb_spec a b); lia. Qed.

Lemma _min_spec a b : _min a b = Z.min a b.
Proof. unfold _min. destruct (Z.ltb_spec a b); lia. Qed.

Lemma last_indep {A} (l : list A) (d d' : A) :
  l <> [] -> last l d = last l d'.
Proof.
  induction l as [|a l IH]; intros Hne; [contradiction|].
  destruct l as [|b l]; [reflexivity|].
  change (last (b :: l) d = last (b :: l) d'). apply IH. discriminate.
Qed.

Lemma last_cons_default {A} (a d : A) (l : list A) :
  last (a :: l) d = last (a :: l) a.
Proof. apply last_indep. discriminate. Qed.

Lemma stream_bounds_Ok_inv cams a b s e :
  stream_bounds cams a b = Ok (s, e) ->
  Forall (fun t => t <> []) cams /\
  (a <= s /\ Forall (fun t => hd 0 t <= s) cams /\
   (s = a \/ Exists (fun t => s = hd 0 t) cams)) /\
  (e <= b /\ Forall (fun t => e <= last t 0) cams /\
   (e = b \/ Exists (fun t => e = last t 0) cams)).
Proof.
  revert a b. induction cams as [|t cams IH]; simpl; intros a b H.
  - injection H as <- <-. repeat split; auto; lia.
  - destruct t as [|t0 t']; [discriminate|].
    apply IH in H as (Hne & (Hs1 & Hs2 & Hs3) & (He1 & He2 & He3)).
    rewrite _max_spec in *. rewrite _min_spec in *.
    rewrite <- (last_cons_default t0 0 t') in *.
    split; [constructor; [discriminate|assumption]|].
    split; (split; [lia|]); (split; [constructor; [cbn [hd]; lia|assumption]|]).
    + destruct Hs3 as [->|Hs3]; [|right; apply Exists_cons_tl; assumption].
      destruct (Z.max_spec t0 a) as [[_ ->]|[_ ->]]; [left; reflexivity|].
      right. apply Exists_cons_hd. reflexivity.
    + destruct He3 as [->|He3]; [|right; apply Exists_cons_tl; assumption].
      destruct (Z.min_spec (last (t0 :: t') 0) b) as [[_ ->]|[_ ->]];
        [|left; reflexivity].
      right. apply Exists_cons_hd. reflexivity.
Qed.

(** ** searchsorted on a sorted array *)

Lemma mid_bounds lo hi :
  (lo < hi)%nat -> (lo <= lo + (hi - lo) / 2 < hi)%nat.
Proof.
  intros H. pose proof (Nat.div_lt (hi - lo) 2 ltac:(lia) ltac:(lia)). lia.
Qed.

Lemma binsearch_left_spec arr key lo hi :
  sorted_nth arr ->
  (lo <= hi <= length arr)%nat ->
  (forall j, (j < lo)%nat -> (nth j arr 0 < key)%Q) ->
  (forall j, (hi <= j < length arr)%nat -> (key <= nth j arr 0)%Q) ->
  (lo <= binsearch_left arr key lo hi <= hi)%nat /\
  (forall j, (j < binsearch_left arr key lo hi)%nat -> (nth j arr 0 < key)%Q) /\
  (forall j, (binsearch_left arr key lo hi <= j < length arr)%nat ->
             (key <= nth j arr 0)%Q).
Proof.
  intros Hs. funelim (binsearch_left arr key lo hi); intros Hb Hlo Hhi.
  - (* empty interval *)
    assert (min_idx = max_idx) by lia. subst.
    repeat split; try lia; assumption.
  - (* arr[mid] < key *)
    match goal with Hlt : (min_idx < max_idx)%nat |- _ =>
      pose proof (mid_bounds _ _ Hlt) as Hm end.
    match goal with Hq : (nth _ arr 0 < key)%Q |- _ => rename Hq into Hmid end.
    match goal with
    | IH : sorted_nth arr -> _ |- _ =>
      destruct IH as (Hk & Hl & Hr); [assumption|lia| |assumption|]
    end.
    + intros j Hj. apply Qle_lt_trans with (2 := Hmid). apply Hs. lia.
    + repeat split; try lia; assumption.
  - (* key <= arr[mid] *)
    match goal with Hlt : (min_idx < max_idx)%nat |- _ =>
      pose proof (mid_bounds _ _ Hlt) as Hm end.
    match goal with Hq : (key <= nth _ arr 0)%Q |- _ => rename Hq into Hmid end.
    match goal with
    | IH : sorted_nth arr -> _ |- _ =>
      destruct IH as (Hk & Hl & Hr); [assumption|lia|assumption| |]
    end.
    + intros j Hj. apply Qle_trans with (1 := Hmid). apply Hs. lia.
    + repeat split; try lia; assumption.
Qed.

(** [searchsorted(arr, key, side='left')] on a sorted array is the index
    [k] with [arr[k-1] < key <= arr[k]]. *)
Lemma searchsorted_left_spec arr key :
  sorted_nth arr ->
  (searchsorted_left arr key <= length arr)%nat /\
  (forall j, (j < searchsorted_left arr key)%nat -> (nth j arr 0 < key)%Q) /\
  (forall j, (searchsorted_left arr key <= j < length arr)%nat ->
             (key <= nth j arr 0)%Q).
Proof.
  intros Hs. unfold searchsorted_left.
  destruct (binsearch_left_spec arr key 0 (length arr) Hs) as (H1 & H2 & H3).
  - lia.
  - intros j Hj. lia.
  - intros j Hj. lia.
  - repeat split; [lia|assumption|assumption].
Qed.

(** The index with that property is unique. *)
Lemma searchsorted_left_unique arr key k :
  sorted_nth arr ->
  (k <= length arr)%nat ->
  (forall j, (j < k)%nat -> (nth j arr 0 < key)%Q) ->
  (forall j, (k <= j < length arr)%nat -> (key <= nth j arr 0)%Q) ->
  searchsorted_left arr key = k.
Proof.
  intros Hs Hk Hl Hr.
  destruct (searchsorted_left_spec arr key Hs) as (H1 & H2 & H3).
  destruct (Nat.lt_trichotomy (searchsorted_left arr key) k) as [H|[H|H]]; [|assumption|].
  - exfalso. apply (Qlt_irrefl key).
    apply Qle_lt_trans with (nth (searchsorted_left arr key) arr 0%Q).
    + apply H3. lia.
    + apply Hl. assumption.
  - exfalso. apply (Qlt_irrefl key).
    apply Qle_lt_trans with (nth k arr 0%Q).
    + apply Hr. lia.
    + apply H2. assumption.
Qed.

(** The index grows with the key. *)
Lemma searchsorted_left_mono arr key key' :
  sorted_nth arr -> (key <= key')%Q ->
  (searchsorted_left arr key <= searchsorted_left arr key')%nat.
Proof.
  intros Hs Hle.
  destruct (searchsorted_left_spec arr key Hs) as (H1 & H2 & H3).
  destruct (searchsorted_left_spec arr key' Hs) as (H1' & H2' & H3').
  destruct (Nat.le_gt_cases (searchsorted_left arr key) (searchsorted_left arr key'))
    as [H|H]; [assumption|].
  exfalso. apply (Qlt_irrefl key).
  apply Qle_lt_trans with (nth (searchsorted_left arr key') arr 0%Q).
  - apply Qle_trans with key'; [assumption|]. apply H3'. lia.
  - apply H2. assumption.
Qed.

(** ** Nearest-frame interpolation over timestamps *)

Lemma Sorted_nondecreasing t : Sorted Z.le t -> nondecreasing t.
Proof.
  intros H. apply Sorted_StronglySorted in H; [|intros x y z; apply Z.le_trans].
  induction H as [|a l Hl IH Ha]; intros i j Hij; [simpl in Hij; lia|].
  destruct i as [|i], j as [|j]; simpl in *; try lia.
  - rewrite Forall_forall in Ha. apply Ha. apply nth_In. lia.
  - apply IH. lia.
Qed.

Lemma x_bds_cons2 a b x :
  x_bds (a :: b :: x) = (b / 2 + a / 2)%Q :: x_bds (b :: x).
Proof. reflexivity. Qed.

Lemma length_x_bds x : length (x_bds x) = (length x - 1)%nat.
Proof.
  induction x as [|a [|b x] IH]; try reflexivity.
  rewrite x_bds_cons2. simpl length in *. lia.
Qed.

Lemma nth_x_bds x i :
  (S i < length x)%nat ->
  nth i (x_bds x) 0%Q = (nth (S i) x 0 / 2 + nth i x 0 / 2)%Q.
Proof.
  revert i. induction x as [|a [|b x] IH]; intros i Hi; simpl in Hi; try lia.
  rewrite x_bds_cons2. destruct i as [|i]; [reflexivity|].
  change (nth i (x_bds (b :: x)) 0%Q
          = (nth (S i) (b :: x) 0 / 2 + nth i (b :: x) 0 / 2)%Q).
  apply IH. simpl. lia.
Qed.

Lemma length_time_to_float t r : length (time_to_float t r) = length t.
Proof. apply length_map. Qed.

Lemma nth_time_to_float t r i :
  (i < length t)%nat ->
  nth i (time_to_float t r) 0%Q = total_seconds (nth i t 0 - r).
Proof.
  intros Hi. unfold time_to_float.
  rewrite (nth_indep _ 0%Q (total_seconds (0 - r))) by (rewrite length_map; lia).
  apply (map_nth (fun t0 => total_seconds (t0 - r))).
Qed.

(** Comparisons of the rationals built from microsecond counts reduce to
    integer comparisons. *)
Ltac seconds_to_microseconds :=
  unfold Qlt, Qle, Qeq, total_seconds, Qdiv, Qplus, Qmult, Qinv;
  cbn [Qnum Qden]; rewrite ?Pos2Z.inj_mul; lia.

Lemma midpoint_lt a b c r :
  (total_seconds (b - r) / 2 + total_seconds (a - r) / 2 < total_seconds (c - r))%Q
  <-> a + b < 2 * c.
Proof. seconds_to_microseconds. Qed.

Lemma midpoint_ge a b c r :
  (total_seconds (c - r) <= total_seconds (b - r) / 2 + total_seconds (a - r) / 2)%Q
  <-> 2 * c <= a + b.
Proof. seconds_to_microseconds. Qed.

Lemma midpoint_le a b a' b' r :
  (total_seconds (b - r) / 2 + total_seconds (a - r) / 2
   <= total_seconds (b' - r) / 2 + total_seconds (a' - r) / 2)%Q
  <-> a + b <= a' + b'.
Proof. seconds_to_microseconds. Qed.

Lemma total_seconds_le a b : (total_seconds a <= total_seconds b)%Q <-> a <= b.
Proof. seconds_to_microseconds. Qed.

Lemma nth_midpoints t r i :
  (S i < length t)%nat ->
  nth i (x_bds (time_to_float t r)) 0%Q
  = (total_seconds (nth (S i) t 0%Z - r) / 2
     + total_seconds (nth i t 0%Z - r) / 2)%Q.
Proof.
  intros Hi. rewrite nth_x_bds by (rewrite length_time_to_float; lia).
  rewrite !nth_time_to_float by lia. reflexivity.
Qed.

Lemma length_midpoints t r :
  length (x_bds (time_to_float t r)) = (length t - 1)%nat.
Proof. rewrite length_x_bds, length_time_to_float. reflexivity. Qed.

Lemma midpoints_sorted t r :
  nondecreasing t -> sorted_nth (x_bds (time_to_float t r)).
Proof.
  intros Hs i j Hij. rewrite length_midpoints in Hij.
  rewrite !nth_midpoints by lia. apply midpoint_le.
  pose proof (Hs i j ltac:(lia)). pose proof (Hs (S i) (S j) ltac:(lia)). lia.
Qed.


(** Conversely, an index between its two midpoints is the computed one. *)
Lemma nearest_frame_unique r t v k :
  nondecreasing t ->
  (k < length t)%nat ->
  (forall j, (S j <= k)%nat -> nth j t 0 + nth (S j) t 0 < 2 * v) ->
  (forall j, (k <= j)%nat -> (S j < length t)%nat ->
             2 * v <= nth j t 0 + nth (S j) t 0) ->
  nearest_frame r t v = Z.of_nat k.
Proof.
  intros Hs Hk Hl Hr. unfold nearest_frame, x_new_index, clip.
  rewrite (searchsorted_left_unique _ _ k (midpoints_sorted t r Hs)).
  - rewrite length_time_to_float. lia.
  - rewrite length_midpoints. lia.
  - intros j Hj. rewrite nth_midpoints by lia. apply midpoint_lt. apply Hl. lia.
  - rewrite length_midpoints. intros j Hj.
    rewrite nth_midpoints by lia. apply midpoint_ge. apply Hr; lia.
Qed.

Lemma nearest_frame_range r t v :
  t <> [] -> 0 <= nearest_frame r t v < Z.of_nat (length t).
Proof.
  intros Hne. unfold nearest_frame, x_new_index, clip.
  rewrite length_time_to_float.
  assert ((0 < length t)%nat) by (destruct t; [contradiction|simpl; lia]).
  lia.
Qed.


Lemma astype_uint16_inject z : astype_uint16 (inject_Z z) = z mod 65536.
Proof. unfold astype_uint16; simpl. rewrite Z.quot_1_r. reflexivity. Qed.

Lemma nth_range_float n i :
  (i < n)%nat -> nth i (range_float n) 0%Q = inject_Z (Z.of_nat i).
Proof.
  intros Hi. unfold range_float.
  rewrite (nth_indep _ 0%Q (inject_Z (Z.of_nat 0))) by (rewrite length_map, length_seq; lia).
  rewrite (map_nth (fun i => inject_Z (Z.of_nat i))), seq_nth by lia.
  reflexivity.
Qed.

(** Each cell of a row of [frame_nums] is the computed index, reduced to
    16 bits. *)
Lemma frame_nums_row_nth s t_cam t row :
  t <> [] ->
  frame_nums_row s t_cam t = Ok row ->
  length row = length t_cam /\
  forall n, (n < length t_cam)%nat ->
            nth n row 0 = nearest_frame s t (nth n t_cam 0) mod 65536.
Proof.
  intros Hne H. unfold frame_nums_row, interp1d_nearest in H.
  destruct (existsb _ _); [discriminate|]. simpl in H. injection H as <-.
  split; [rewrite !length_map, length_time_to_float; reflexivity|].
  intros n Hn.
  rewrite (nth_indep _ 0 (astype_uint16 0%Q))
    by (rewrite !length_map, length_time_to_float; lia).
  rewrite (map_nth astype_uint16).
  rewrite (nth_indep _ 0%Q (_call_nearest (time_to_float t s)
                              (range_float (length t)) 0%Q))
    by (rewrite !length_map, length_time_to_float; lia).
  rewrite (map_nth (_call_nearest _ _)).
  rewrite nth_time_to_float by lia.
  unfold _call_nearest. fold (nearest_frame s t (nth n t_cam 0)).
  pose proof (nearest_frame_range s t (nth n t_cam 0) Hne).
  rewrite nth_range_float by lia.
  rewrite astype_uint16_inject, Z2Nat.id by lia. reflexivity.
Qed.

(** ** What a successful synchronization computed *)

Lemma synchronize_Ok_inv cams fps t_cam frame_nums :
  synchronize cams fps = Ok (t_cam, frame_nums) ->
  exists s e d,
    stream_bounds cams datetime_min datetime_max = Ok (s, e) /\
    frame_period fps = Ok d /\
    date_range s e d = Ok t_cam /\
    mapM (frame_nums_row s t_cam) cams = Ok frame_nums.
Proof.
  unfold synchronize. intros H.
  apply bind_Ok_inv in H as ([s e] & Hb & H).
  apply bind_Ok_inv in H as (d & Hd & H).
  apply bind_Ok_inv in H as (l & Hl & H).
  apply bind_Ok_inv in H as (fn & Hfn & H).
  injection H as <- <-. exists s, e, d. auto.
Qed.

(** ** Rows of the frame table in closed form *)

Lemma last_map_nonempty {A B} (f : A -> B) (l : list A) (a : A) (b : B) :
  l <> [] -> last (map f l) b = f (last l a).
Proof.
  induction l as [|x l IH]; intros Hne; [contradiction|].
  destruct l as [|y l]; [reflexivity|].
  change (last (map f (y :: l)) b = f (last (y :: l) a)). apply IH. discriminate.
Qed.

Lemma out_of_bounds_false t r v :
  t <> [] -> hd 0 t <= v <= last t 0 ->
  out_of_bounds (time_to_float t r) (total_seconds (v - r)) = false.
Proof.
  intros Hne [Hlo Hhi]. unfold out_of_bounds.
  assert (Hhd : hd 0%Q (time_to_float t r) = total_seconds (hd 0 t - r))
    by (destruct t; [contradiction|reflexivity]).
  assert (Hlast : last (time_to_float t r) 0%Q = total_seconds (last t 0 - r))
    by (apply (last_map_nonempty (fun t0 => total_seconds (t0 - r))); assumption).
  rewrite Hhd, Hlast.
  destruct (Qlt_le_dec _ _) as [H|_].
  - exfalso. revert H. apply Qle_not_lt. apply total_seconds_le. lia.
  - destruct (Qlt_le_dec _ _) as [H|_]; [|reflexivity].
    exfalso. revert H. apply Qle_not_lt. apply total_seconds_le. lia.
Qed.

Lemma frame_nums_row_Ok s t_cam t :
  t <> [] ->
  Forall (fun v => hd 0 t <= v <= last t 0) t_cam ->
  frame_nums_row s t_cam t
  = Ok (map (fun v => nearest_frame s t v mod 65536) t_cam).
Proof.
  intros Hne Hin. unfold frame_nums_row, interp1d_nearest.
  assert (Hb : existsb (out_of_bounds (time_to_float t s)) (time_to_float t_cam s)
               = false).
  { unfold time_to_float at 2. induction Hin as [|v l Hv Hl IH]; [reflexivity|].
    simpl. rewrite out_of_bounds_false by assumption. exact IH. }
  rewrite Hb. simpl. f_equal. unfold time_to_float at 2.
  rewrite !map_map. apply map_ext_in. intros v Hv.
  unfold _call_nearest. fold (nearest_frame s t v).
  pose proof (nearest_frame_range s t v Hne).
  rewrite nth_range_float by lia.
  rewrite astype_uint16_inject, Z2Nat.id by lia. reflexivity.
Qed.

Lemma stream_bounds_cons t rest a b :
  t <> [] ->
  stream_bounds (t :: rest) a b
  = stream_bounds rest (_max (hd 0 t) a) (_min (last t 0) b).
Proof.
  intros Hne. destruct t as [|t0 t']; [contradiction|].
  cbn [stream_bounds hd]. rewrite (last_cons_default t0 0 t'). reflexivity.
Qed.

(** ** The output period *)

Lemma round_half_even_frac n p :
  let f := n / Z.pos p in
  let r := n mod Z.pos p in
  round_half_even (n # p)
  = if 2 * r <? Z.pos p then f
    else if Z.pos p <? 2 * r then f + 1
    else if Z.even f then f else f + 1.
Proof.
  intros f r. unfold round_half_even.
  change (Qfloor (n # p)) with f.
  pose proof (Z.div_mod n (Z.pos p) ltac:(lia)) as Hdm. fold f r in Hdm.
  unfold Qcompare, Qminus, Qplus, Qopp, inject_Z; cbn [Qnum Qden].
  rewrite ?Pos2Z.inj_mul.
  destruct (Z.compare_spec ((n * 1 + - f * Z.pos p) * 2) (1 * (Z.pos p * 1)));
    destruct (Z.ltb_spec (2 * r) (Z.pos p)); try lia;
    destruct (Z.ltb_spec (Z.pos p) (2 * r)); try lia; reflexivity.
Qed.

Lemma float_overflow_large : 2000000 < float_overflow.
Proof. reflexivity. Qed.

Lemma frame_period_in_range fps :
  Z.abs fps < float_overflow ->
  frame_period fps
  = if fps =? 0 then Raise ZeroDivisionError
    else Ok (timedelta_seconds (1 / inject_Z fps)).
Proof.
  intros H. unfold frame_period.
  destruct (Z.leb_spec float_overflow (Z.abs fps)); [lia|reflexivity].
Qed.

Lemma frame_period_Ok_inv fps d :
  frame_period fps = Ok d ->
  Z.abs fps < float_overflow /\ fps <> 0 /\
  d = timedelta_seconds (1 / inject_Z fps).
Proof.
  unfold frame_period.
  destruct (Z.leb_spec float_overflow (Z.abs fps)); [discriminate|].
  destruct (Z.eqb_spec fps 0); [discriminate|].
  intros [= <-]. repeat split; assumption.
Qed.

Lemma timedelta_seconds_pos fps :
  0 < fps ->
  timedelta_seconds (1 / inject_Z fps) = round_half_even (1000000 # Z.to_pos fps).
Proof.
  intros H. destruct fps as [|p|p]; try lia.
  unfold timedelta_seconds, Qdiv, Qmult, Qinv, inject_Z; cbn [Qnum Qden Z.to_pos].
  rewrite Pos.mul_1_r. reflexivity.
Qed.

Lemma frame_period_pos fps :
  0 < fps < float_overflow ->
  frame_period fps = Ok (round_half_even (1000000 # Z.to_pos fps)).
Proof.
  intros H. rewrite frame_period_in_range by lia.
  destruct (Z.eqb_spec fps 0); [lia|].
  destruct fps as [|p|p]; try lia.
  unfold timedelta_seconds, Qdiv, Qmult, Qinv, inject_Z; cbn [Qnum Qden Z.to_pos].
  rewrite Pos.mul_1_r. reflexivity.
Qed.

Lemma frame_period_positive fps :
  0 < fps < 2000000 -> exists d, frame_period fps = Ok d /\ 0 < d.
Proof.
  intros [H0 H1]. pose proof float_overflow_large as Hbig.
  rewrite frame_period_pos by lia.
  eexists; split; [reflexivity|].
  rewrite round_half_even_frac. cbv zeta.
  rewrite Z2Pos.id by assumption.
  pose proof (Z.div_mod 1000000 fps ltac:(lia)) as Hdm.
  pose proof (Z.mod_pos_bound 1000000 fps H0) as Hr.
  assert (Hf : 0 <= 1000000 / fps) by (apply Z.div_pos; lia).
  destruct (Z.ltb_spec (2 * (1000000 mod fps)) fps) as [Hc|Hc].
  - destruct (Z.eq_dec (1000000 / fps) 0) as [E|E]; [|lia].
    rewrite E in Hdm. lia.
  - destruct (Z.ltb_spec fps (2 * (1000000 mod fps))); [lia|].
    destruct (Z.even (1000000 / fps)) eqn:Ev; [|lia].
    destruct (Z.eq_dec (1000000 / fps) 0) as [E|E]; [|lia].
    rewrite E in Hdm. lia.
Qed.

Lemma frame_period_nonneg fps d :
  0 < fps -> frame_period fps = Ok d -> 0 <= d.
Proof.
  intros H0 H. apply frame_period_Ok_inv in H as (_ & _ & ->).
  rewrite timedelta_seconds_pos by assumption.
  rewrite round_half_even_frac. cbv zeta. rewrite Z2Pos.id by assumption.
  assert (Hf : 0 <= 1000000 / fps) by (apply Z.div_pos; lia).
  repeat destruct (_ <? _); try destruct (Z.even _); lia.
Qed.

Lemma frame_period_exact fps :
  0 < fps -> (fps | 1000000) ->
  exists d, frame_period fps = Ok d /\ (total_seconds d == 1 / inject_Z fps)%Q.
Proof.
  intros H0 [q Hq].
  assert (Hle : fps <= 1000000) by (apply Z.divide_pos_le; [lia|exists q; assumption]).
  pose proof float_overflow_large as Hbig.
  rewrite frame_period_pos by lia.
  eexists; split; [reflexivity|].
  rewrite round_half_even_frac. cbv zeta. rewrite Z2Pos.id by assumption.
  rewrite Hq, Z.mod_mul, Z.div_mul by lia.
  destruct (Z.ltb_spec (2 * 0) fps); [|lia].
  destruct fps as [|p|p]; try lia.
  unfold Qeq, total_seconds, Qdiv, Qmult, Qinv, inject_Z; cbn [Qnum Qden].
  lia.
Qed.

(** ** Synchronization: rows and timeline *)

Lemma nth_error_nonempty cams i (t : list Z) :
  Forall (fun t => t <> []) cams -> nth_error cams i = Some t -> t <> [].
Proof.
  intros HF Hi. rewrite Forall_forall in HF. apply HF.
  eapply nth_error_In; eassumption.
Qed.

Lemma synchronize_row cams fps t_cam frame_nums i t :
  synchronize cams fps = Ok (t_cam, frame_nums) ->
  nth_error cams i = Some t ->
  t <> [] /\
  exists s row,
    nth_error frame_nums i = Some row /\
    length row = length t_cam /\
    forall n, (n < length t_cam)%nat ->
              nth n row 0 = nearest_frame s t (nth n t_cam 0) mod 65536.
Proof.
  intros H Hi. apply synchronize_Ok_inv in H as (s & e & d & Hb & Hd & Hl & Hfn).
  apply stream_bounds_Ok_inv in Hb as (Hne & _ & _).
  pose proof (nth_error_nonempty _ _ _ Hne Hi) as Ht. split; [assumption|].
  destruct (mapM_Ok_nth _ _ _ Hfn) as [_ Hnth].
  destruct (Hnth _ _ Hi) as (row & Hrow & Hr).
  destruct (frame_nums_row_nth _ _ _ _ Ht Hr) as [Hlen Hcell].
  exists s, row. auto.
Qed.

Lemma synchronize_timeline_sorted cams fps t_cam frame_nums :
  synchronize cams fps = Ok (t_cam, frame_nums) ->
  forall a b, (a <= b < length t_cam)%nat -> nth a t_cam 0 <= nth b t_cam 0.
Proof.
  intros H a b Hab. apply synchronize_Ok_inv in H as (s & e & d & _ & _ & Hl & _).
  apply date_range_Ok_inv in Hl as (Hd0 & Hneg & Hpos).
  destruct (Z.lt_trichotomy d 0) as [Hd|[Hd|Hd]]; [|lia|].
  - rewrite (Hneg Hd) in Hab. simpl in Hab. lia.
  - destruct (Hpos Hd) as [_ Hnth]. rewrite !Hnth by lia. nia.
Qed.

Lemma nearest_frame_mono r t v v' :
  nondecreasing t -> v <= v' -> nearest_frame r t v <= nearest_frame r t v'.
Proof.
  intros Hs Hv. unfold nearest_frame, x_new_index, clip.
  pose proof (searchsorted_left_mono (x_bds (time_to_float t r))
                (total_seconds (v - r)) (total_seconds (v' - r))
                (midpoints_sorted t r Hs)) as Hm.
  specialize (Hm ltac:(apply total_seconds_le; lia)). lia.
Qed.

(** Well-formed inputs are synchronized: with four (or any number of)
    non-empty timestamp arrays and a usable frame rate the computation
    ends without an exception. *)
Lemma synchronize_total cams fps :
  Forall (fun t => t <> []) cams -> 0 < fps < 2000000 ->
  exists t_cam frame_nums, synchronize cams fps = Ok (t_cam, frame_nums).
Proof.
  intros Hne Hfps. unfold synchronize.
  assert (Hb : forall a b, exists s e, stream_bounds cams a b = Ok (s, e)).
  { induction Hne as [|t cams Ht _ IH]; intros a b; [simpl; eauto|].
    rewrite stream_bounds_cons by assumption. apply IH. }
  destruct (Hb datetime_min datetime_max) as (s & e & Hse). rewrite Hse. simpl.
  destruct (frame_period_positive fps Hfps) as (d & -> & Hd). simpl.
  destruct (date_range_positive s e d Hd) as (l & Hl & Hlen & Hnth).
  rewrite Hl. simpl.
  apply stream_bounds_Ok_inv in Hse as (_ & (_ & Hs & _) & (_ & He & _)).
  assert (Hrows : forall cs, Forall (fun t => t <> []) cs ->
            Forall (fun t => hd 0 t <= s) cs -> Forall (fun t => e <= last t 0) cs ->
            exists rows, mapM (frame_nums_row s l) cs = Ok rows).
  { induction cs as [|t cs IH]; intros H1 H2 H3; [simpl; eauto|].
    inversion H1; inversion H2; inversion H3; subst. simpl.
    rewrite frame_nums_row_Ok; [|assumption|].
    - simpl. destruct IH as (rows & ->); auto. simpl. eauto.
    - apply Forall_forall. intros v Hv.
      destruct (In_nth _ _ 0 Hv) as (k & Hk & <-).
      rewrite Hnth by assumption.
      assert (s + Z.of_nat k * d < e)
        by (apply timeline_length_lt; [assumption|lia]).
      nia. }
  destruct (Hrows cams Hne Hs He) as (rows & ->). simpl. eauto.
Qed.

(** ** Claims about the synchronizer *)


(** C2 (amended): the virtual timeline of a successful synchronization
    with a positive frame rate consists of exactly the instants
    [t_latest_start + k * step] that lie strictly below [t_earliest_end],
    in order, where [t_latest_start] is the greatest first timestamp,
    [t_earliest_end] the least last timestamp and
    [step = timedelta(seconds=1/fps)], a whole number of microseconds that
    equals [1/fps] seconds when [fps] divides 1000000. *)
Theorem timeline_is_half_open_range cams fps t_cam frame_nums :
  synchronize cams fps = Ok (t_cam, frame_nums) ->
  cams <> [] ->
  Forall (Forall valid_datetime) cams ->
  0 < fps ->
  exists t_latest_start t_earliest_end step,
    (Exists (fun t => hd 0 t = t_latest_start) cams /\
     Forall (fun t => hd 0 t <= t_latest_start) cams) /\
    (Exists (fun t => last t 0 = t_earliest_end) cams /\
     Forall (fun t => t_earliest_end <= last t 0) cams) /\
    (frame_period fps = Ok step /\ 0 < step /\
     ((fps | 1000000) -> (total_seconds step == 1 / inject_Z fps)%Q)) /\
    (forall k, (k < length t_cam)%nat ->
               nth k t_cam 0 = t_latest_start + Z.of_nat k * step) /\
    (forall k, (k < length t_cam)%nat <->
               t_latest_start + Z.of_nat k * step < t_earliest_end) /\
    ~ In t_earliest_end t_cam.
Proof.
  intros H Hcams Hvalid Hfps.
  apply synchronize_Ok_inv in H as (s & e & d & Hb & Hd & Hl & _).
  apply stream_bounds_Ok_inv in Hb as (Hne & (Hs1 & Hs2 & Hs3) & (He1 & He2 & He3)).
  apply date_range_Ok_inv in Hl as (Hd0 & _ & Hpos).
  pose proof (frame_period_nonneg fps d Hfps Hd) as Hd1.
  destruct (Hpos ltac:(lia)) as [Hlen Hnth].
  assert (Hfirst : Forall (fun t => datetime_min <= hd 0 t /\ last t 0 <= datetime_max)
                          cams).
  { rewrite Forall_forall in *. intros t Ht.
    specialize (Hne t Ht). specialize (Hvalid t Ht). rewrite Forall_forall in Hvalid.
    destruct t as [|t0 t']; [contradiction|]. split.
    - apply (Hvalid t0). left; reflexivity.
    - apply (Hvalid (last (t0 :: t') 0)).
      rewrite (last_cons_default t0 0 t'). apply (@exists_last _ (t0 :: t')) in Hne.
      destruct Hne as (l' & a & E). rewrite E, last_last. apply in_or_app.
      right; left; reflexivity. }
  assert (Hex : exists t, In t cams)
    by (destruct cams as [|t ?]; [contradiction|exists t; left; reflexivity]).
  destruct Hex as (tw & Htw).
  exists s, e, d. repeat split.
  - destruct Hs3 as [->|Hs3].
    + rewrite Forall_forall in Hfirst, Hs2. apply Exists_exists. exists tw.
      split; [assumption|].
      pose proof (proj1 (Hfirst tw Htw)). pose proof (Hs2 tw Htw). lia.
    + apply Exists_exists in Hs3 as (t & Ht & ->). apply Exists_exists; eauto.
  - assumption.
  - destruct He3 as [->|He3].
    + rewrite Forall_forall in Hfirst, He2. apply Exists_exists. exists tw.
      split; [assumption|].
      pose proof (proj2 (Hfirst tw Htw)). pose proof (He2 tw Htw). lia.
    + apply Exists_exists in He3 as (t & Ht & ->). apply Exists_exists; eauto.
  - assumption.
  - assumption.
  - lia.
  - intros Hdiv. destruct (frame_period_exact fps Hfps Hdiv) as (d' & Hd' & Heq).
    congruence.
  - assumption.
  - intros Hk. apply timeline_length_lt; [lia|]. rewrite <- Hlen. assumption.
  - intros Hk. rewrite Hlen. apply timeline_length_lt; [lia|]. assumption.
  - intros Hin. destruct (In_nth _ _ 0 Hin) as (k & Hk & Ek).
    rewrite Hnth in Ek by assumption.
    assert (s + Z.of_nat k * d < e)
      by (apply timeline_length_lt; [lia|]; rewrite <- Hlen; assumption).
    lia.
Qed.

(** C9 (amended): for a camera whose timestamps are non-decreasing and
    whose stream has at most 65536 frames, the row of the frame table
    never steps backward along the virtual timeline. *)
Theorem frame_row_is_monotone cams fps t_cam frame_nums i t :
  synchronize cams fps = Ok (t_cam, frame_nums) ->
  nth_error cams i = Some t ->
  Sorted Z.le t ->
  Z.of_nat (length t) <= 65536 ->
  exists row, nth_error frame_nums i = Some row /\ row_nondecreasing row.
Proof.
  intros H Hi Hs Hlen.
  destruct (synchronize_row _ _ _ _ _ _ H Hi) as (Hne & s & row & Hrow & Hl & Hcell).
  exists row. split; [assumption|]. intros a b Hab. rewrite Hl in Hab.
  rewrite !Hcell by lia.
  pose proof (nearest_frame_range s t (nth a t_cam 0) Hne).
  pose proof (nearest_frame_range s t (nth b t_cam 0) Hne).
  rewrite !Z.mod_small by lia.
  apply nearest_frame_mono; [apply Sorted_nondecreasing; assumption|].
  apply (synchronize_timeline_sorted _ _ _ _ H). lia.
Qed.


(** ** Facts about the example inputs *)

Lemma length_arith_seq n t d : length (arith_seq n t d) = n.
Proof. revert t; induction n as [|n IH]; intros t; simpl; [|rewrite IH]; reflexivity. Qed.

Lemma nth_arith_seq n t d k :
  (k < n)%nat -> nth k (arith_seq n t d) 0 = t + Z.of_nat k * d.
Proof.
  revert t k; induction n as [|n IH]; intros t k Hk; [lia|].
  destruct k as [|k]; cbn [nth arith_seq]; [lia|]. rewrite IH by lia. lia.
Qed.

Lemma hd_arith_seq n t d : (0 < n)%nat -> hd 0 (arith_seq n t d) = t.
Proof. destruct n; [lia|reflexivity]. Qed.

Lemma last_arith_seq n t d :
  (0 < n)%nat -> last (arith_seq n t d) 0 = t + (Z.of_nat n - 1) * d.
Proof.
  revert t; induction n as [|n IH]; intros t Hn; [lia|].
  destruct n as [|n]; [cbn [last arith_seq]; lia|].
  change (last (arith_seq (S n) (t + d) d) 0 = t + (Z.of_nat (S (S n)) - 1) * d).
  rewrite IH by lia. lia.
Qed.

Lemma arith_seq_nonempty n t d : (0 < n)%nat -> arith_seq n t d <> [].
Proof. destruct n; [lia|discriminate]. Qed.

Lemma Sorted_arith_seq n t d : 0 <= d -> Sorted Z.le (arith_seq n t d).
Proof.
  intros Hd. revert t; induction n as [|n IH]; intros t; [constructor|].
  simpl. constructor; [apply IH|].
  destruct n; simpl; constructor. lia.
Qed.

Lemma cam_long_nonempty : cam_long <> [].
Proof. apply arith_seq_nonempty. lia. Qed.


(** A virtual timestamp that coincides with frame [k] of the long camera
    selects frame [k]. *)
Lemma cam_long_nearest r k v :
  0 <= k < 65600 -> v = 40000 * k -> nearest_frame r cam_long v = k.
Proof.
  intros Hk ->.
  rewrite (nearest_frame_unique r cam_long (40000 * k) (Z.to_nat k)).
  - lia.
  - apply Sorted_nondecreasing, Sorted_arith_seq. lia.
  - unfold cam_long. rewrite length_arith_seq. lia.
  - intros j Hj. unfold cam_long. rewrite !nth_arith_seq by lia. lia.
  - unfold cam_long. rewrite length_arith_seq. intros j Hj Hj'.
    rewrite !nth_arith_seq by lia. lia.
Qed.

Lemma cam_late_row :
  frame_nums_row 2621000000 [2621000000; 2622000000; 2623000000] cam_late
  = Ok [0; 25; 50].
Proof. vm_compute. reflexivity. Qed.

(** The synchronization of the long camera with three late ones at one
    output frame per second. *)
Lemma synchronize_long :
  synchronize [cam_long; cam_late; cam_late; cam_late] 1
  = Ok ([2621000000; 2622000000; 2623000000],
        [[65525; 14; 39]; [0; 25; 50]; [0; 25; 50]; [0; 25; 50]]).
Proof.
  unfold synchronize.
  rewrite stream_bounds_cons by apply cam_long_nonempty.
  unfold cam_long at 1 2.
  rewrite hd_arith_seq, last_arith_seq by lia.
  rewrite Z2Nat.id by lia.
  assert (E : stream_bounds [cam_late; cam_late; cam_late] (_max 0 datetime_min)
                (_min (0 + (65600 - 1) * 40000) datetime_max)
              = Ok (2621000000, 2623960000)) by (vm_compute; reflexivity).
  rewrite E. cbn [bind].
  assert (E1 : frame_period 1 = Ok 1000000) by (vm_compute; reflexivity).
  rewrite E1. cbn [bind].
  assert (E2 : date_range 2621000000 2623960000 1000000
               = Ok [2621000000; 2622000000; 2623000000])
    by (vm_compute; reflexivity).
  rewrite E2. cbn [bind mapM].
  rewrite cam_late_row.
  rewrite frame_nums_row_Ok.
  - cbn [bind map].
    rewrite (cam_long_nearest 2621000000 65525) by lia.
    rewrite (cam_long_nearest 2621000000 65550) by lia.
    rewrite (cam_long_nearest 2621000000 65575) by lia.
    reflexivity.
  - apply cam_long_nonempty.
  - unfold cam_long. rewrite hd_arith_seq, last_arith_seq by lia.
    repeat constructor; lia.
Qed.

(** The end-to-end example of the specification. *)
Lemma synchronize_spec_example :
  synchronize spec_cams 1
  = Ok (spec_t_cam, spec_frame_nums).
Proof. vm_compute. reflexivity. Qed.

Lemma Sorted_camA : Sorted Z.le camA.
Proof. unfold camA. repeat constructor; lia. Qed.

Lemma Sorted_cam_long : Sorted Z.le cam_long.
Proof. apply Sorted_arith_seq. lia. Qed.

Lemma valid_spec_cams : Forall (Forall valid_datetime) spec_cams.
Proof. unfold valid_datetime. repeat constructor; vm_compute; discriminate. Qed.



(** The hypotheses of [frame_row_is_monotone] hold on the end-to-end
    example. *)
Lemma frame_row_is_monotone_witness :
  synchronize spec_cams 1
  = Ok (spec_t_cam, spec_frame_nums) /\
  nth_error spec_cams 0 = Some camA /\
  Sorted Z.le camA /\
  Z.of_nat (length camA) <= 65536 /\
  exists row,
    nth_error spec_frame_nums 0 = Some row /\
    row_nondecreasing row.
Proof.
  assert (H1 := synchronize_spec_example).
  assert (H2 : nth_error spec_cams 0 = Some camA) by reflexivity.
  assert (H3 := Sorted_camA).
  assert (H4 : Z.of_nat (length camA) <= 65536) by (simpl; lia).
  exact (conj H1 (conj H2 (conj H3 (conj H4
           (frame_row_is_monotone _ _ _ _ _ _ H1 H2 H3 H4))))).
Defined.

(** C9 as stated fails for a stream of more than 65536 frames: the row
    of the long camera is 65525, 14, 39. *)
Lemma frame_row_is_monotone_counterexample :
  Sorted Z.le cam_long /\
  exists t_cam frame_nums row,
    synchronize [cam_long; cam_late; cam_late; cam_late] 1
    = Ok (t_cam, frame_nums) /\
    nth_error frame_nums 0 = Some row /\
    ~ row_nondecreasing row.
Proof.
  split; [apply Sorted_cam_long|].
  eexists _, _, _. split; [apply synchronize_long|]. split; [reflexivity|].
  intros H. specialize (H 0%nat 1%nat ltac:(simpl; lia)).
  simpl in H. lia.
Qed.


(** The hypotheses of [timeline_is_half_open_range] hold on the
    end-to-end example. *)
Lemma timeline_is_half_open_range_witness :
  synchronize spec_cams 1
  = Ok (spec_t_cam, spec_frame_nums) /\
  spec_cams <> [] /\
  Forall (Forall valid_datetime) spec_cams /\
  0 < 1 /\
  exists t_latest_start t_earliest_end step,
    (Exists (fun t => hd 0 t = t_latest_start) spec_cams /\
     Forall (fun t => hd 0 t <= t_latest_start) spec_cams) /\
    (Exists (fun t => last t 0 = t_earliest_end) spec_cams /\
     Forall (fun t => t_earliest_end <= last t 0) spec_cams) /\
    (frame_period 1 = Ok step /\ 0 < step /\
     ((1 | 1000000) -> (total_seconds step == 1 / inject_Z 1)%Q)) /\
    (forall k, (k < length spec_t_cam)%nat ->
               nth k spec_t_cam 0 = t_latest_start + Z.of_nat k * step) /\
    (forall k, (k < length spec_t_cam)%nat <->
               t_latest_start + Z.of_nat k * step < t_earliest_end) /\
    ~ In t_earliest_end spec_t_cam.
Proof.
  assert (H1 := synchronize_spec_example).
  assert (H2 : spec_cams <> []) by discriminate.
  assert (H3 := valid_spec_cams).
  assert (H4 : 0 < 1) by lia.
  exact (conj H1 (conj H2 (conj H3 (conj H4
           (timeline_is_half_open_range _ _ _ _ H1 H2 H3 H4))))).
Defined.

(** C2 as stated fails for a frame rate that does not divide 1000000:
    at 30 frames per second consecutive entries are 33333 microseconds
    apart, which is not 1/30 s. *)
Lemma timeline_is_half_open_range_counterexample :
  exists t_cam frame_nums t0 t1,
    synchronize [cam_short; cam_short; cam_short; cam_short] 30
    = Ok (t_cam, frame_nums) /\
    nth_error t_cam 0 = Some t0 /\
    nth_error t_cam 1 = Some t1 /\
    ~ (total_seconds (t1 - t0) == 1 / inject_Z 30)%Q.
Proof.
  exists [0; 33333; 66666; 99999].
  exists [[0; 1; 2; 2]; [0; 1; 2; 2]; [0; 1; 2; 2]; [0; 1; 2; 2]].
  exists 0, 33333.
  split; [vm_compute; reflexivity|]. split; [reflexivity|]. split; [reflexivity|].
  intros H. vm_compute in H. discriminate.
Qed.

(** ** generate_multicam_video: files, re-runs and failures *)

Lemma length_removelast {A} (l : list A) :
  length (removelast l) = (length l - 1)%nat.
Proof.
  induction l as [|a [|b l] IH]; try reflexivity.
  change (length (a :: removelast (b :: l)) = (length (a :: b :: l) - 1)%nat).
  simpl length in *. lia.
Qed.

Lemma nth_removelast {A} (l : list A) (d : A) k :
  (S k < length l)%nat -> nth k (removelast l) d = nth k l d.
Proof.
  revert k; induction l as [|a [|b l] IH]; intros k Hk; simpl in Hk; try lia.
  change (nth k (a :: removelast (b :: l)) d = nth k (a :: b :: l) d).
  destruct k as [|k]; [reflexivity|]. simpl nth. apply IH. simpl. lia.
Qed.

Lemma last_nth {A} (l : list A) (d : A) :
  last l d = nth (length l - 1) l d.
Proof.
  induction l as [|a [|b l] IH]; try reflexivity.
  change (last (b :: l) d = nth (length (b :: l)) (a :: b :: l) d).
  rewrite IH. simpl. rewrite Nat.sub_0_r. reflexivity.
Qed.

(** Regenerating the range from its first entry up to its last entry
    loses the last entry. *)
Lemma date_range_up_to_last s e d l :
  0 < d -> date_range s e d = Ok l -> l <> [] ->
  date_range (hd 0 l) (last l 0) d = Ok (removelast l).
Proof.
  intros Hd Hl Hne.
  apply date_range_Ok_inv in Hl as (_ & _ & Hpos). destruct (Hpos Hd) as [Hlen Hnth].
  assert (HL : (0 < length l)%nat) by (destruct l; [contradiction|simpl; lia]).
  assert (Hhd : hd 0 l = s).
  { destruct l as [|a l']; [contradiction|]. specialize (Hnth 0%nat HL). simpl in *. lia. }
  assert (Hlast : last l 0 = s + Z.of_nat (length l - 1) * d)
    by (rewrite last_nth; apply Hnth; lia).
  rewrite Hhd, Hlast.
  destruct (date_range_positive s (s + Z.of_nat (length l - 1) * d) d Hd)
    as (l' & -> & Hlen' & Hnth').
  f_equal.
  assert (Hcount : length l' = (length l - 1)%nat).
  { rewrite Hlen'.
    pose proof (timeline_length_lt s (s + Z.of_nat (length l - 1) * d) d
                  (timeline_length s (s + Z.of_nat (length l - 1) * d) d) Hd) as H1.
    pose proof (timeline_length_lt s (s + Z.of_nat (length l - 1) * d) d
                  (length l - 1) Hd) as H2.
    destruct (Nat.lt_trichotomy
                (timeline_length s (s + Z.of_nat (length l - 1) * d) d)
                (length l - 1)) as [H|[H|H]]; [|assumption|].
    - exfalso. apply proj2 in H1. assert (Hc : s + Z.of_nat
        (timeline_length s (s + Z.of_nat (length l - 1) * d) d) * d
        < s + Z.of_nat (length l - 1) * d) by nia. apply H1 in Hc. lia.
    - exfalso. apply proj1 in H2. specialize (H2 H). lia. }
  apply (nth_ext _ _ 0 0).
  - rewrite length_removelast. assumption.
  - intros k Hk. rewrite Hnth' by assumption.
    rewrite nth_removelast by lia. rewrite Hnth by lia. reflexivity.
Qed.

(** What a run that recomputes leaves in the alignment file, and what
    [generate_video] rebuilds from it. *)
Lemma persisted_alignment e t_start t_end fps visualize keys overwrite fs
      t_cam frame_nums :
  synchronize (map t_str (cameras e)) fps = Ok (t_cam, frame_nums) ->
  multicam_mp4 fs = None \/ overwrite = true ->
  t_cam <> [] ->
  multicam_h5 (fst (generate_multicam_video e t_start t_end fps visualize keys
                                            overwrite fs))
  = Some {| attr_t_start := Some (hd 0 t_cam);
            attr_t_end := Some (last t_cam 0);
            attr_fps := Some fps;
            dataset_frame_nums := Some frame_nums |}.
Proof.
  intros Hs Hrun Hne. unfold generate_multicam_video.
  assert (Hgate : (match multicam_mp4 fs with Some _ => true | None => false end)
                  && negb overwrite = false).
  { destruct Hrun as [->| ->]; [reflexivity|]. apply andb_false_r. }
  rewrite Hgate, Hs. destruct t_cam as [|t0 rest]; [contradiction|].
  destruct (write_frames _ _ _ _ _ _ _ _ _) as [st r]. cbn [fst multicam_h5 hd].
  rewrite (last_cons_default t0 0 rest). reflexivity.
Qed.

Lemma reconstruct_drops_last e t_start t_end fps visualize keys overwrite fs
      t_cam frame_nums :
  synchronize (map t_str (cameras e)) fps = Ok (t_cam, frame_nums) ->
  multicam_mp4 fs = None \/ overwrite = true ->
  t_cam <> [] -> 0 < fps ->
  exists h5,
    multicam_h5 (fst (generate_multicam_video e t_start t_end fps visualize keys
                                              overwrite fs)) = Some h5 /\
    reconstruct_t_cam h5 = Ok (removelast t_cam).
Proof.
  intros Hs Hrun Hne Hfps. eexists. split; [eapply persisted_alignment; eassumption|].
  unfold reconstruct_t_cam. cbn [attr_t_start attr_t_end attr_fps].
  apply synchronize_Ok_inv in Hs as (s & en & d & _ & Hd & Hl & _).
  rewrite Hd. cbn [bind].
  pose proof (frame_period_nonneg _ _ Hfps Hd).
  pose proof (date_range_Ok_inv _ _ _ _ Hl) as (Hd0 & _).
  eapply date_range_up_to_last; [lia|eassumption|assumption].
Qed.

(** C3 (the code departs from the claim): on the end-to-end example the
    synchronizer computes the two-entry timeline 0.1 s, 1.1 s and rows of
    length two, but the timeline rebuilt from the stored [t_start],
    [t_end] and [fps] has the single entry 0.1 s: [t_end] is the last
    entry and the rebuilt range is half-open. *)
Theorem reconstructed_timeline_misses_last_entry :
  synchronize (map t_str (cameras spec_experiment)) 1
  = Ok (spec_t_cam, spec_frame_nums) /\
  exists fs h5,
    generate_multicam_video spec_experiment 0 (-1) 1 false no_key false fs_empty
    = (fs, Ok tt) /\
    multicam_h5 fs = Some h5 /\
    dataset_frame_nums h5 = Some spec_frame_nums /\
    reconstruct_t_cam h5 = Ok [100000] /\
    Forall (fun row => length row = 2%nat) spec_frame_nums.
Proof.
  split; [vm_compute; reflexivity|].
  eexists _, _. split; [vm_compute; reflexivity|].
  split; [reflexivity|]. split; [reflexivity|]. split; [vm_compute; reflexivity|].
  repeat constructor.
Qed.

(** C4 (the code departs from the claim): there is no check of the
    overlap.  When the latest start is not before the earliest end, the
    synchronizer computes an empty virtual timeline and empty rows, the
    run creates both output files, and only then stops, with the
    [IndexError] of [t_cam[0]]; it leaves an empty video and an alignment
    file without attributes and without the frame table. *)
Theorem no_overlap_stops_with_IndexError e t_start t_end fps visualize keys
        overwrite fs t_latest_start t_earliest_end :
  stream_bounds (map t_str (cameras e)) datetime_min datetime_max
  = Ok (t_latest_start, t_earliest_end) ->
  t_earliest_end <= t_latest_start ->
  0 < fps < 2000000 ->
  multicam_mp4 fs = None \/ overwrite = true ->
  synchronize (map t_str (cameras e)) fps = Ok ([], [[]; []; []; []]) /\
  generate_multicam_video e t_start t_end fps visualize keys overwrite fs
  = ({| multicam_mp4 := Some []; multicam_h5 := Some h5_empty |}, Raise IndexError).
Proof.
  intros Hb Hle Hfps Hrun.
  assert (Hs : synchronize (map t_str (cameras e)) fps = Ok ([], [[]; []; []; []])).
  { unfold synchronize. rewrite Hb. cbn [bind].
    destruct (frame_period_positive fps Hfps) as (d & -> & Hd). cbn [bind].
    destruct (date_range_positive t_latest_start t_earliest_end d Hd)
      as (l & -> & Hlen & _).
    rewrite timeline_length_done in Hlen by assumption.
    destruct l; [|discriminate]. reflexivity. }
  split; [assumption|].
  unfold generate_multicam_video.
  assert (Hgate : (match multicam_mp4 fs with Some _ => true | None => false end)
                  && negb overwrite = false).
  { destruct Hrun as [->| ->]; [reflexivity|]. apply andb_false_r. }
  rewrite Hgate, Hs. reflexivity.
Qed.

(** The hypotheses of [no_overlap_stops_with_IndexError] hold for two
    pairs of cameras that only share one instant. *)
Lemma no_overlap_stops_with_IndexError_witness :
  stream_bounds (map t_str (cameras zero_overlap_experiment)) datetime_min datetime_max
  = Ok (1000000, 1000000) /\
  1000000 <= 1000000 /\
  0 < 25 < 2000000 /\
  (multicam_mp4 fs_empty = None \/ false = true) /\
  synchronize (map t_str (cameras zero_overlap_experiment)) 25
  = Ok ([], [[]; []; []; []]) /\
  generate_multicam_video zero_overlap_experiment 0 (-1) 25 false no_key false fs_empty
  = ({| multicam_mp4 := Some []; multicam_h5 := Some h5_empty |}, Raise IndexError).
Proof.
  assert (H1 : stream_bounds (map t_str (cameras zero_overlap_experiment))
                 datetime_min datetime_max = Ok (1000000, 1000000))
    by (vm_compute; reflexivity).
  assert (H2 : 1000000 <= 1000000) by lia.
  assert (H3 : 0 < 25 < 2000000) by lia.
  assert (H4 : multicam_mp4 fs_empty = None \/ false = true) by (left; reflexivity).
  exact (conj H1 (conj H2 (conj H3 (conj H4
           (no_overlap_stops_with_IndexError zero_overlap_experiment 0 (-1) 25 false
              no_key false fs_empty 1000000 1000000 H1 H2 H3 H4))))).
Defined.

(** C4 on the zero-overlap input: the run computes an empty timeline and
    ends in the [IndexError] of an index expression, not in a check of the
    configuration.  The files it leaves make the next run return at once
    (the empty video exists), and [generate_video] then fails with a
    [KeyError] on the alignment file, from which nothing can be rebuilt. *)
Lemma no_overlap_counterexample :
  synchronize (map t_str (cameras zero_overlap_experiment)) 25
  = Ok ([], [[]; []; []; []]) /\
  generate_multicam_video zero_overlap_experiment 0 (-1) 25 false no_key false
                          fs_empty
  = (zero_overlap_leftover, Raise IndexError) /\
  generate_multicam_video zero_overlap_experiment 0 (-1) 25 false no_key false
                          zero_overlap_leftover
  = (zero_overlap_leftover, Ok tt) /\
  reconstruct_t_cam h5_empty = Raise KeyError /\
  generate_video zero_overlap_experiment (-1) session_weight_t plain_session 25 [] 1
                 zero_overlap_leftover
  = (zero_overlap_leftover, GvRaise KeyError).
Proof.
  split; [vm_compute; reflexivity|].
  split; [vm_compute; reflexivity|].
  split; [reflexivity|].
  split; [reflexivity|].
  vm_compute; reflexivity.
Qed.

(** The assertion on the value returned by [read] can never fail: the
    value is a two-element tuple, which is true. *)
Lemma read_assert_passes v dst :
  py_assert (fst (fst (VideoCapture_read v dst))) = Ok tt.
Proof. unfold VideoCapture_read. destruct (nth_error _ _); reflexivity. Qed.

Lemma read_cameras_never_raises frame_nums n cams s :
  snd (read_cameras frame_nums n cams s) = Ok tt.
Proof.
  revert s. induction cams as [|i cams IH]; intros s; [reflexivity|].
  cbn [read_cameras].
  pose proof (read_assert_passes
                (VideoCapture_set (nth i (videos_in s) no_video)
                                  (nth n (nth i frame_nums []) 0)) (img s)) as Hok.
  destruct (VideoCapture_read _ _) as [[ok v'] img']. cbn [fst] in Hok.
  rewrite Hok. apply IH.
Qed.

Lemma write_frames_never_raises frame_nums t0 t_start t_end visualize keys n ts s :
  snd (write_frames frame_nums t0 t_start t_end visualize keys n ts s) = Ok tt.
Proof.
  revert n s. induction ts as [|t ts IH]; intros n s; [reflexivity|].
  cbn [write_frames]. destruct (outside_clip _ _ _); [apply IH|].
  pose proof (read_cameras_never_raises frame_nums n
                (seq 0 (length frame_nums)) s) as Hr.
  destruct (read_cameras _ _ _ _) as [s1 r]. cbn [snd] in Hr. subst r.
  destruct (visualize && _); [reflexivity|apply IH].
Qed.

Lemma bind_Raise_inv {A B} (c : outcome A) (k : A -> outcome B) ex :
  bind c k = Raise ex -> c = Raise ex \/ exists a, c = Ok a /\ k a = Raise ex.
Proof.
  destruct c as [a|ex'|]; cbn [bind]; intros H; [right; eauto|left; congruence|].
  discriminate.
Qed.

Lemma stream_bounds_never_asserts cams a b :
  stream_bounds cams a b <> Raise AssertionError.
Proof.
  revert a b. induction cams as [|t cams IH]; intros a b; [discriminate|].
  cbn [stream_bounds]. destruct t; [discriminate|apply IH].
Qed.

Lemma rows_never_assert s t_cam cams :
  mapM (frame_nums_row s t_cam) cams <> Raise AssertionError.
Proof.
  induction cams as [|t cams IH]; [discriminate|]. cbn [mapM]. intros H.
  apply bind_Raise_inv in H as [H|(row & _ & H)].
  - unfold frame_nums_row, interp1d_nearest in H.
    destruct (existsb _ _); discriminate.
  - apply bind_Raise_inv in H as [H|(rows & _ & H)]; [exact (IH H)|discriminate].
Qed.

Lemma synchronize_never_asserts cams fps :
  synchronize cams fps <> Raise AssertionError.
Proof.
  unfold synchronize. intros H.
  apply bind_Raise_inv in H as [H|([s e] & _ & H)];
    [exact (stream_bounds_never_asserts _ _ _ H)|].
  apply bind_Raise_inv in H as [H|(d & _ & H)].
  { unfold frame_period in H.
    destruct (float_overflow <=? Z.abs fps); [discriminate|].
    destruct (fps =? 0); discriminate. }
  apply bind_Raise_inv in H as [H|(l & _ & H)].
  { unfold date_range in H. destruct (Qeq_bool _ _); [discriminate|].
    destruct (date_range_loop _ _ _ _); discriminate. }
  apply bind_Raise_inv in H as [H|(rows & _ & H)];
    [exact (rows_never_assert _ _ _ H)|discriminate].
Qed.

(** No run of [generate_multicam_video] ends in an [AssertionError]. *)
Lemma generate_multicam_video_never_asserts e t_start t_end fps visualize keys
      overwrite fs :
  snd (generate_multicam_video e t_start t_end fps visualize keys overwrite fs)
  <> Raise AssertionError.
Proof.
  unfold generate_multicam_video. destruct (_ && _); [discriminate|].
  pose proof (synchronize_never_asserts (map t_str (cameras e)) fps) as Hs.
  destruct (synchronize _ _) as [[t_cam frame_nums]|ex|].
  - destruct t_cam as [|t0 rest]; [discriminate|].
    pose proof (write_frames_never_raises frame_nums t0 t_start t_end visualize
                  keys 0 (t0 :: rest)
                  {| videos_in := open_videos e; img := Black;
                     rgb_data := {| quad0 := Black; quad1 := Black;
                                    quad2 := Black; quad3 := Black |};
                     video_out := [] |}) as Hw.
    destruct (write_frames _ _ _ _ _ _ _ _ _) as [st r]. cbn [snd] in *.
    rewrite Hw. discriminate.
  - cbn [snd]. congruence.
  - discriminate.
Qed.

(** C6 (the code departs from the claim): the second frame of camera 1
    cannot be read, yet the run ends normally and the second composite
    frame is written with the stale content of the read buffer in the
    place of camera 1. *)
Theorem failed_read_is_not_fatal :
  fst (fst (VideoCapture_read
              (VideoCapture_set {| frames := mp4 (cam1 truncated_experiment);
                                   pos_frames := 0 |} 1) Black))
  = PyTuple [PyBool false; PyNone] /\
  exists h5,
    generate_multicam_video truncated_experiment 0 (-1) 1 false no_key false fs_empty
    = ({| multicam_mp4 :=
            Some [Tiled (Frame 0 0) (Frame 1 0) (Frame 2 0) (Frame 3 0);
                  Tiled (Tiled (Frame 0 0) (Frame 1 0) (Frame 2 0) (Frame 3 0))
                        (Frame 1 1) (Frame 2 1) (Frame 3 1)];
          multicam_h5 := Some h5 |}, Ok tt).
Proof.
  split; [reflexivity|]. eexists. vm_compute. reflexivity.
Qed.

(** The same holds in the player: with a three-entry timeline and a video
    of one frame the loop reads past the end of the video twice and ends
    normally at the last cursor position. *)
Lemma playback_failed_read_is_not_fatal :
  exists p,
    play 10 {| opt_t_start := 0; opt_t_end := -1; opt_visualize := false;
               opt_save_video := true; opt_cb := false |}
         [20000000; 21000000; 22000000] (player_init [Frame 0 0] 0 [])
    = Ok p /\ n p = 2 /\ written p = [0; 1; 2].
Proof. eexists. split; [vm_compute; reflexivity|]. split; reflexivity. Qed.

(** ** The player: navigation and exit keys *)

Lemma after_skip_cursor p delta :
  let p' := after_key (skip_frames p delta) in
  n p' = clip (n p + delta) 0 (Z.of_nat (length (frames (video_in p)))) /\
  VideoCapture_get (video_in p') = n p'.
Proof.
  unfold after_key, skip_frames, with_flags, with_n, with_video, VideoCapture_get,
    VideoCapture_set; cbn.
  rewrite Z2Nat.id by (unfold clip; lia). split; reflexivity.
Qed.

(** C7: a frame-increment command never fails and leaves the cursor at
    the position reported by the video stream, which is the requested
    position clamped to the valid range: 0 when the command steps back
    past the first frame. *)
Theorem navigation_clamps_cursor cb t_cam k p delta :
  frame_step k = Some delta ->
  exists p',
    key_command cb t_cam k p = Ok (Next p') /\
    n p' = clip (n p + delta) 0 (Z.of_nat (length (frames (video_in p)))) /\
    0 <= n p' <= Z.of_nat (length (frames (video_in p))) /\
    (n p + delta < 0 -> n p' = 0).
Proof.
  intros Hk. unfold frame_step in Hk.
  assert (Hgoal : forall q, n q = clip (n p + delta) 0
                                  (Z.of_nat (length (frames (video_in p)))) ->
            n q = clip (n p + delta) 0 (Z.of_nat (length (frames (video_in p)))) /\
            0 <= n q <= Z.of_nat (length (frames (video_in p))) /\
            (n p + delta < 0 -> n q = 0))
    by (intros q ->; unfold clip; lia).
  destruct (Z.eqb_spec k KEY_LEFT) as [->|_]; [|
  destruct (Z.eqb_spec k KEY_RIGHT) as [->|_]; [|
  destruct (Z.eqb_spec k KEY_UP) as [->|_]; [|
  destruct (Z.eqb_spec k KEY_DOWN) as [->|_]; [|discriminate]]]];
    injection Hk as <-; eexists; (split; [reflexivity|]); apply Hgoal;
    apply (after_skip_cursor (with_flags p (is_paused p) false false)).
Qed.

(** Stepping back by 8 frames from cursor 3 ends at cursor 0. *)
Lemma navigation_clamps_cursor_witness :
  frame_step KEY_DOWN = Some (-8) /\
  exists p',
    key_command false spec_t_cam KEY_DOWN
                (with_n (player_init [Frame 0 0; Frame 0 1; Frame 0 2; Frame 0 3] 0 []) 3)
    = Ok (Next p') /\
    n p' = clip (n (with_n (player_init [Frame 0 0; Frame 0 1; Frame 0 2; Frame 0 3]
                                        0 []) 3) + -8) 0
                (Z.of_nat (length (frames (video_in
                   (with_n (player_init [Frame 0 0; Frame 0 1; Frame 0 2; Frame 0 3]
                                        0 []) 3))))) /\
    0 <= n p' <= Z.of_nat (length (frames (video_in
                   (with_n (player_init [Frame 0 0; Frame 0 1; Frame 0 2; Frame 0 3]
                                        0 []) 3)))) /\
    (n (with_n (player_init [Frame 0 0; Frame 0 1; Frame 0 2; Frame 0 3] 0 []) 3)
     + -8 < 0 -> n p' = 0).
Proof.
  assert (H : frame_step KEY_DOWN = Some (-8)) by reflexivity.
  exact (conj H (navigation_clamps_cursor false spec_t_cam KEY_DOWN
                   (with_n (player_init [Frame 0 0; Frame 0 1; Frame 0 2; Frame 0 3]
                                        0 []) 3) (-8) H)).
Defined.

(** *** The loop never raises *)

Lemma py_index_Ok {A} (l : list A) i :
  - Z.of_nat (length l) <= i < Z.of_nat (length l) ->
  exists a, py_index l i = Ok a.
Proof.
  intros Hi. unfold py_index.
  set (j := if i <? 0 then i + Z.of_nat (length l) else i).
  assert (Hj : 0 <= j < Z.of_nat (length l))
    by (unfold j; destruct (Z.ltb_spec i 0); lia).
  destruct (Z.leb_spec 0 j); [|lia]. destruct (Z.ltb_spec j (Z.of_nat (length l))); [|lia].
  cbn [andb].
  destruct (nth_error l (Z.to_nat j)) eqn:E; [eauto|].
  apply nth_error_None in E. lia.
Qed.

(** The cursor after a key command that does not end the loop. *)
Lemma key_command_cursor cb t_cam k p :
  -1 <= n p < Z.of_nat (length t_cam) -> t_cam <> [] ->
  match key_command cb t_cam k p with
  | Ok (Next p') | Ok (Break p') => -1 <= n p'
  | Raise _ => False
  | Diverge => False
  end.
Proof.
  intros Hn Hne. unfold key_command.
  assert (0 < length t_cam)%nat by (destruct t_cam; [contradiction|simpl; lia]).
  assert (Hskip : forall q delta, -1 <= n (after_key (skip_frames q delta))).
  { intros q delta. destruct (after_skip_cursor q delta) as [-> _]. unfold clip. lia. }
  assert (Hsame : forall q, do_skip_frames q = false -> n (after_key q) = n q).
  { intros q Hq. unfold after_key. cbn. rewrite Hq. reflexivity. }
  destruct (py_index_Ok t_cam (n p) ltac:(lia)) as (t & Ht).
  change (n (with_flags p (is_paused p) false false)) with (n p).
  rewrite Ht. cbn [bind].
  repeat match goal with
         | |- context [if ?b then _ else _] => destruct b
         end;
    try apply Hskip; try (rewrite Hsame by reflexivity); cbn; lia.
Qed.

Lemma loop_body_cursor o t_cam p :
  -1 <= n p < Z.of_nat (length t_cam) - 1 ->
  match loop_body o t_cam p with
  | Ok (Next p') | Ok (Break p') => -1 <= n p'
  | Raise _ => False
  | Diverge => True
  end.
Proof.
  intros Hn. unfold loop_body.
  assert (Hne : t_cam <> []) by (destruct t_cam; [simpl in Hn; lia|discriminate]).
  assert (H1 : exists p1,
    (if negb (is_paused p) || do_skip_frames p
     then let '(ok, v, _) := VideoCapture_read (video_in p) Black in
          _ <- py_assert ok ;; Ok (with_video (with_n p (n p + 1)) v)
     else Ok p) = Ok p1 /\ -1 <= n p1 < Z.of_nat (length t_cam)).
  { destruct (negb (is_paused p) || do_skip_frames p).
    - pose proof (read_assert_passes (video_in p) Black) as Hok.
      destruct (VideoCapture_read _ _) as [[ok v] im]. cbn [fst] in Hok.
      rewrite Hok. cbn [bind]. eexists; split; [reflexivity|]. cbn. lia.
    - eexists; split; [reflexivity|]. lia. }
  destruct H1 as (p1 & -> & Hn1). cbn [bind].
  destruct (py_index_Ok t_cam (n p1) ltac:(lia)) as (t & Ht).
  assert (H2 : exists skip,
    (if refresh_weight p1
     then t <- py_index t_cam (n p1) ;;
          Ok (player_outside_clip
                (total_seconds (t - weight_to_cam_t_offset p1))
                (opt_t_start o) (opt_t_end o))
     else Ok false) = Ok skip).
  { destruct (refresh_weight p1); [rewrite Ht|]; cbn [bind]; eauto. }
  destruct H2 as (skip & ->). cbn [bind].
  destruct skip; [lia|].
  set (p2 := if opt_save_video o then with_written p1 else p1).
  assert (Hn2 : n p2 = n p1) by (unfold p2; destruct (opt_save_video o); reflexivity).
  destruct (opt_visualize o); [|lia].
  unfold waitKeyEx. destruct (pending_keys p2) as [|k ks] eqn:Hk.
  - destruct (is_paused p2); [exact I|]. cbn [bind].
    pose proof (key_command_cursor (opt_cb o) t_cam (-1) p2 ltac:(lia) Hne) as Hc.
    destruct (key_command _ _ _ _) as [[?|?]| |]; try contradiction; assumption.
  - cbn [bind].
    pose proof (key_command_cursor (opt_cb o) t_cam k (with_keys p2 ks)
                  ltac:(cbn; lia) Hne) as Hc.
    destruct (key_command _ _ _ _) as [[?|?]| |]; try contradiction; assumption.
Qed.

(** From a cursor at or after -1 the playback loop never raises. *)
Lemma play_never_raises fuel o t_cam p :
  -1 <= n p ->
  match play fuel o t_cam p with
  | Ok p' => -1 <= n p'
  | Raise _ => False
  | Diverge => True
  end.
Proof.
  revert p. induction fuel as [|fuel IH]; intros p Hn; [exact I|].
  cbn [play]. destruct (Z.ltb_spec (n p) (Z.of_nat (length t_cam) - 1)); [|assumption].
  pose proof (loop_body_cursor o t_cam p ltac:(lia)) as Hb.
  destruct (loop_body o t_cam p) as [[p'|p']|ex|]; cbn [bind];
    [apply IH; assumption|assumption|contradiction|exact I].
Qed.

(** C8 (amended): escape ends the loop whether or not an event callback
    is configured; any other pressed key that has no command of its own
    ends the loop only when no event callback is configured. *)
Theorem exit_keys cb t_cam k p :
  exits cb t_cam k p
  = (k =? KEY_ESC) || ((k >? 0) && negb cb && negb (recognized cb k)).
Proof.
  unfold exits, key_command, recognized, command_keys, event_keys.
  cbn [existsb].
  repeat match goal with
         | |- context [k =? ?c] =>
           lazymatch c with
           | KEY_ESC => fail
           | _ => destruct (Z.eqb_spec k c) as [->|?];
                  [destruct cb; cbn [andb orb negb];
                   try destruct (py_index _ _); reflexivity|]
           end
         end.
  cbn [andb orb negb]. rewrite !andb_false_r. cbn [orb negb].
  destruct (k =? KEY_ESC), (k >? 0), cb; reflexivity.
Qed.

(** C8 as stated fails: with an event callback configured escape still
    ends the loop. *)
Lemma exit_keys_counterexample :
  exits true spec_t_cam KEY_ESC (player_init [Frame 0 0] 0 []) = true /\
  key_table_exits true KEY_ESC = false.
Proof. split; reflexivity. Qed.

(* ===================================================================== *)
(** * Further properties of the code *)
(* ===================================================================== *)

(** ** The output period for every frame rate *)

Lemma timedelta_seconds_neg fps :
  fps < 0 ->
  timedelta_seconds (1 / inject_Z fps)
  = round_half_even (-1000000 # Z.to_pos (- fps)).
Proof.
  intros H. destruct fps as [|p|p]; try lia.
  unfold timedelta_seconds, Qdiv, Qmult, Qinv, inject_Z; cbn [Qnum Qden Z.to_pos Z.opp].
  rewrite Pos.mul_1_r. reflexivity.
Qed.

(** [timedelta(seconds=1.0/video_fps)] is positive for a frame rate from 1
    to 1999999, negative from -1999999 to -1, and the zero duration from
    2000000 on in either direction. *)
Lemma frame_period_sign fps d :
  frame_period fps = Ok d ->
  (0 < d <-> 0 < fps < 2000000) /\
  (d < 0 <-> -2000000 < fps < 0) /\
  (d = 0 <-> 2000000 <= fps \/ fps <= -2000000).
Proof.
  intros H.
  assert (Hcases : (0 < fps < 2000000 /\ 0 < d) \/ (-2000000 < fps < 0 /\ d < 0)
                   \/ ((2000000 <= fps \/ fps <= -2000000) /\ d = 0)); [|lia].
  pose proof (frame_period_Ok_inv _ _ H) as (Hrange & Hnz & Hd).
  destruct (Z.lt_trichotomy fps 0) as [Hneg|[->|Hpos]].
  - subst d. rewrite timedelta_seconds_neg by assumption.
    rewrite round_half_even_frac. cbv zeta. rewrite Z2Pos.id by lia.
    set (p := - fps) in *. assert (Hp : 0 < p) by (unfold p; lia).
    pose proof (Z.div_mod (-1000000) p ltac:(lia)) as Hdm.
    pose proof (Z.mod_pos_bound (-1000000) p Hp) as Hr.
    remember (-1000000 / p) as f eqn:Ef. remember (-1000000 mod p) as r eqn:Er.
    clear Ef Er.
    assert (Hf : f <= -1) by nia.
    destruct (Z_le_gt_dec 2000000 p) as [Hbig|Hsmall].
    + assert (f = -1) by nia. subst f.
      right; right. split; [unfold p in Hbig; lia|].
      destruct (Z.ltb_spec (2 * r) p); [lia|].
      destruct (Z.ltb_spec p (2 * r)); [lia|]. reflexivity.
    + right; left. split; [unfold p in Hsmall; lia|].
      destruct (Z.ltb_spec (2 * r) p); [lia|].
      assert (f <= -2) by nia.
      destruct (Z.ltb_spec p (2 * r)); [lia|]. destruct (Z.even f); lia.
  - contradiction.
  - destruct (Z_le_gt_dec 2000000 fps) as [Hbig|Hsmall].
    + right; right. split; [lia|].
      subst d. rewrite timedelta_seconds_pos by assumption.
      rewrite round_half_even_frac. cbv zeta. rewrite Z2Pos.id by assumption.
      rewrite Z.div_small, Z.mod_small by lia.
      destruct (Z.ltb_spec (2 * 1000000) fps); [reflexivity|].
      destruct (Z.ltb_spec fps (2 * 1000000)); [lia|reflexivity].
    + left. destruct (frame_period_positive fps ltac:(lia)) as (d' & Hd' & Hlt).
      split; [lia|]. congruence.
Qed.

(** ** How the synchronizer can fail *)

Lemma stream_bounds_empty cams a b :
  Exists (fun t => t = []) cams -> stream_bounds cams a b = Raise IndexError.
Proof.
  intros H. revert a b. induction H as [t cams Ht|t cams _ IH]; intros a b.
  - subst t. reflexivity.
  - cbn [stream_bounds]. destruct t; [reflexivity|apply IH].
Qed.

Lemma stream_bounds_nonempty cams a b :
  Forall (fun t => t <> []) cams -> exists s e, stream_bounds cams a b = Ok (s, e).
Proof.
  intros H. revert a b. induction H as [|t cams Ht _ IH]; intros a b; [simpl; eauto|].
  rewrite stream_bounds_cons by assumption. apply IH.
Qed.

(** Inside the synchronizer the bounds check of [interp1d] cannot fire:
    every point of the timeline lies within the coverage of every camera. *)
Lemma rows_Ok cams a b s e d l :
  stream_bounds cams a b = Ok (s, e) ->
  date_range s e d = Ok l ->
  mapM (frame_nums_row s l) cams
  = Ok (map (fun t => map (fun v => nearest_frame s t v mod 65536) l) cams).
Proof.
  intros Hb Hl.
  apply stream_bounds_Ok_inv in Hb as (Hne & (_ & Hs & _) & (_ & He & _)).
  assert (Hin : forall v, In v l -> s <= v < e).
  { apply date_range_Ok_inv in Hl as (Hd0 & Hneg & Hpos).
    destruct (Z.lt_trichotomy d 0) as [Hd|[Hd|Hd]]; [|lia|].
    - rewrite (Hneg Hd). intros v [].
    - destruct (Hpos Hd) as [Hlen Hnth]. intros v Hv.
      destruct (In_nth _ _ 0 Hv) as (k & Hk & <-). rewrite Hnth by assumption.
      assert (s + Z.of_nat k * d < e)
        by (apply timeline_length_lt; [assumption|lia]).
      nia. }
  clear Hl. induction cams as [|t cams IH]; [reflexivity|].
  inversion Hne; inversion Hs; inversion He; subst. cbn [mapM map].
  rewrite frame_nums_row_Ok; [|assumption|].
  - cbn [bind]. rewrite IH by assumption. reflexivity.
  - apply Forall_forall. intros v Hv. specialize (Hin v Hv). lia.
Qed.

Lemma synchronize_Raise_iff cams fps ex :
  synchronize cams fps = Raise ex <->
  (ex = IndexError /\ Exists (fun t => t = []) cams) \/
  (ex = OverflowError /\ Forall (fun t => t <> []) cams /\
   float_overflow <= Z.abs fps) \/
  (ex = ZeroDivisionError /\ Forall (fun t => t <> []) cams /\ fps = 0) \/
  (ex = InfiniteLoopException /\ Forall (fun t => t <> []) cams /\
   2000000 <= Z.abs fps < float_overflow).
Proof.
  assert (Hdec : Exists (fun t : list Z => t = []) cams
                 \/ Forall (fun t : list Z => t <> []) cams).
  { induction cams as [|t cams [IH|IH]].
    - right; constructor.
    - left; apply Exists_cons_tl; assumption.
    - destruct t; [left; apply Exists_cons_hd; reflexivity|].
      right; constructor; [discriminate|assumption]. }
  assert (Hexcl : Exists (fun t : list Z => t = []) cams ->
                  Forall (fun t : list Z => t <> []) cams -> False).
  { intros Hex Hall. apply Exists_exists in Hex as (t & Ht & ->).
    rewrite Forall_forall in Hall. exact (Hall [] Ht eq_refl). }
  pose proof float_overflow_large as Hlarge.
  unfold synchronize. destruct Hdec as [Hex|Hall].
  - rewrite (stream_bounds_empty _ _ _ Hex). cbn [bind]. split.
    + intros H. injection H as <-. left; auto.
    + intros [[-> _]|[(_ & Hall & _)|[(_ & Hall & _)|(_ & Hall & _)]]];
        [reflexivity|destruct (Hexcl Hex Hall)..].
  - destruct (stream_bounds_nonempty cams datetime_min datetime_max Hall)
      as (s & e & Hb). rewrite Hb. cbn [bind].
    destruct (Z.le_gt_cases float_overflow (Z.abs fps)) as [Hover|Hin].
    { unfold frame_period.
      destruct (Z.leb_spec float_overflow (Z.abs fps)); [|lia]. cbn [bind]. split.
      - intros Hr. injection Hr as <-. right; left; auto.
      - intros [[_ Hex]|[(-> & _)|[(_ & _ & Hr)|(_ & _ & Hr)]]];
          [destruct (Hexcl Hex Hall)|reflexivity|lia..]. }
    rewrite frame_period_in_range by lia.
    destruct (Z.eqb_spec fps 0) as [->|Hfps]; cbn [bind].
    + split.
      * intros H. injection H as <-. right; right; left; auto.
      * intros [[_ Hex]|[(_ & _ & H)|[(-> & _)|(_ & _ & H)]]];
          [destruct (Hexcl Hex Hall)|lia|reflexivity|lia].
    + pose proof (frame_period_sign fps _ ltac:(rewrite frame_period_in_range by lia;
        destruct (Z.eqb_spec fps 0); [contradiction|reflexivity])) as (Hp & Hn & Hz).
      set (d := timedelta_seconds (1 / inject_Z fps)) in *.
      destruct (date_range s e d) as [l|ex'|] eqn:Hl; cbn [bind].
      * rewrite (rows_Ok _ _ _ _ _ _ _ Hb Hl). cbn [bind].
        apply date_range_Ok_inv in Hl as (Hd0 & _).
        split; [discriminate|].
        intros [[_ Hex]|[(_ & _ & H)|[(_ & _ & H)|(_ & _ & H)]]];
          [destruct (Hexcl Hex Hall)|lia|contradiction|lia].
      * unfold date_range in Hl. rewrite total_seconds_zero in Hl.
        destruct (Z.eqb_spec d 0) as [Hd|Hd].
        -- injection Hl as <-. split.
           ++ intros H. injection H as <-. right; right; right.
              repeat split; auto; lia.
           ++ intros [[_ Hex]|[(_ & _ & H)|[(_ & _ & H)|(-> & _)]]];
                [destruct (Hexcl Hex Hall)|lia|contradiction|reflexivity].
        -- destruct (date_range_loop _ _ _ _); discriminate.
      * split; [discriminate|].
        unfold date_range in Hl. rewrite total_seconds_zero in Hl.
        destruct (Z.eqb_spec d 0) as [Hd|Hd]; [discriminate|].
        intros [[_ Hex]|[(_ & _ & H)|[(_ & _ & H)|(_ & _ & H)]]];
          [destruct (Hexcl Hex Hall)|lia|contradiction|lia].
Qed.

(** X1: for a frame rate that is not negative, and timestamps that lie
    at least one second before [datetime.max] (so that no step of the
    timeline leaves the range of the dates), the synchronizer raises only
    an [IndexError] (exactly when a camera has no timestamp), an
    [OverflowError] (no such camera and [fps] beyond the range of the
    floats), a [ZeroDivisionError] (no such camera and [fps = 0]) or the
    infinite-loop exception of [date_range] (no such camera and
    [2000000 <= fps] within the range of the floats); in particular the
    bounds check of [interp1d] never raises its [ValueError]. *)
Theorem synchronize_raises_only cams fps ex :
  0 <= fps ->
  Forall (Forall steppable) cams ->
  (synchronize cams fps = Raise ex <->
   (ex = IndexError /\ Exists (fun t => t = []) cams) \/
   (ex = OverflowError /\ Forall (fun t => t <> []) cams /\
    float_overflow <= fps) \/
   (ex = ZeroDivisionError /\ Forall (fun t => t <> []) cams /\ fps = 0) \/
   (ex = InfiniteLoopException /\ Forall (fun t => t <> []) cams /\
    2000000 <= fps < float_overflow)).
Proof.
  intros Hfps _. rewrite synchronize_Raise_iff. rewrite (Z.abs_eq fps Hfps).
  reflexivity.
Qed.

Lemma synchronize_raises_only_witness :
  0 <= float_overflow /\
  Forall (Forall steppable) spec_cams /\
  (synchronize spec_cams float_overflow = Raise OverflowError <->
   (OverflowError = IndexError /\ Exists (fun t => t = []) spec_cams) \/
   (OverflowError = OverflowError /\ Forall (fun t => t <> []) spec_cams /\
    float_overflow <= float_overflow) \/
   (OverflowError = ZeroDivisionError /\
    Forall (fun t => t <> []) spec_cams /\ float_overflow = 0) \/
   (OverflowError = InfiniteLoopException /\
    Forall (fun t => t <> []) spec_cams /\
    2000000 <= float_overflow < float_overflow)).
Proof.
  assert (H1 : 0 <= float_overflow) by (vm_compute; discriminate).
  assert (H2 : Forall (Forall steppable) spec_cams)
    by (unfold steppable; repeat constructor; vm_compute; discriminate).
  exact (conj H1 (conj H2
           (synchronize_raises_only spec_cams float_overflow OverflowError H1 H2))).
Defined.

Lemma running_gate (fs : filesystem) overwrite :
  multicam_mp4 fs = None \/ overwrite = true ->
  (match multicam_mp4 fs with Some _ => true | None => false end) && negb overwrite
  = false.
Proof. intros [->| ->]; [reflexivity|apply andb_false_r]. Qed.

(** A failure of the synchronization is the result of the whole run, and
    both output files are as they were. *)
Lemma generate_multicam_video_sync_failure e t_start t_end fps visualize keys
      overwrite fs ex :
  multicam_mp4 fs = None \/ overwrite = true ->
  synchronize (map t_str (cameras e)) fps = Raise ex ->
  generate_multicam_video e t_start t_end fps visualize keys overwrite fs
  = (fs, Raise ex).
Proof.
  intros Hrun Hs. unfold generate_multicam_video.
  rewrite (running_gate _ _ Hrun), Hs. reflexivity.
Qed.

(** X2: when a camera has no timestamp the run stops with the
    [IndexError] of [camera_timestamps[-1][0]], before either output file
    is created or changed. *)
Theorem empty_camera_stream_raises_IndexError e t_start t_end fps visualize keys
        overwrite fs :
  multicam_mp4 fs = None \/ overwrite = true ->
  Exists (fun c => t_str c = []) (cameras e) ->
  generate_multicam_video e t_start t_end fps visualize keys overwrite fs
  = (fs, Raise IndexError).
Proof.
  intros Hrun Hex. apply generate_multicam_video_sync_failure; [assumption|].
  apply synchronize_Raise_iff. left. split; [reflexivity|].
  apply Exists_exists in Hex as (c & Hc & Hempty).
  apply Exists_exists. exists (t_str c). split; [apply in_map; assumption|assumption].
Qed.

(** X3: with timestamps for every camera, a frame rate that no timeline
    can be built from stops the run with both output files as they were:
    a frame rate beyond the range of the floats (in absolute value) with
    the [OverflowError] of the conversion, a frame rate of 0 with a
    [ZeroDivisionError], and a frame rate of 2000000 or more (in absolute
    value) within the range of the floats with the infinite-loop
    exception of [date_range], because [1/fps] seconds is then the zero
    duration. *)
Theorem unusable_frame_rate_raises e t_start t_end fps visualize keys overwrite fs :
  multicam_mp4 fs = None \/ overwrite = true ->
  Forall (fun c => t_str c <> []) (cameras e) ->
  fps = 0 \/ 2000000 <= Z.abs fps ->
  generate_multicam_video e t_start t_end fps visualize keys overwrite fs
  = (fs, Raise (if fps =? 0 then ZeroDivisionError
                else if float_overflow <=? Z.abs fps then OverflowError
                else InfiniteLoopException)).
Proof.
  intros Hrun Hall Hfps. apply generate_multicam_video_sync_failure; [assumption|].
  assert (Hall' : Forall (fun t : list Z => t <> []) (map t_str (cameras e))).
  { apply Forall_forall. intros t Ht. apply in_map_iff in Ht as (c & <- & Hc).
    rewrite Forall_forall in Hall. apply Hall. assumption. }
  apply synchronize_Raise_iff. destruct (Z.eqb_spec fps 0) as [->|Hn].
  - right; right; left. auto.
  - destruct (Z.leb_spec float_overflow (Z.abs fps)).
    + right; left. auto.
    + right; right; right. repeat split; [assumption|lia..].
Qed.

Lemma empty_camera_stream_raises_IndexError_witness :
  (multicam_mp4 fs_empty = None \/ false = true) /\
  Exists (fun c => t_str c = []) (cameras empty_camera_experiment) /\
  generate_multicam_video empty_camera_experiment 0 (-1) 25 false no_key false fs_empty
  = (fs_empty, Raise IndexError).
Proof.
  assert (H1 : multicam_mp4 fs_empty = None \/ false = true) by (left; reflexivity).
  assert (H2 : Exists (fun c => t_str c = []) (cameras empty_camera_experiment))
    by (apply Exists_cons_tl, Exists_cons_tl, Exists_cons_hd; reflexivity).
  exact (conj H1 (conj H2
           (empty_camera_stream_raises_IndexError empty_camera_experiment 0 (-1) 25
              false no_key false fs_empty H1 H2))).
Defined.

Lemma unusable_frame_rate_raises_witness :
  (multicam_mp4 fs_empty = None \/ false = true) /\
  Forall (fun c => t_str c <> []) (cameras spec_experiment) /\
  (-2000000 = 0 \/ 2000000 <= Z.abs (-2000000)) /\
  generate_multicam_video spec_experiment 0 (-1) (-2000000) false no_key false
                          fs_empty
  = (fs_empty, Raise (if -2000000 =? 0 then ZeroDivisionError
                      else if float_overflow <=? Z.abs (-2000000) then OverflowError
                      else InfiniteLoopException)).
Proof.
  assert (H1 : multicam_mp4 fs_empty = None \/ false = true) by (left; reflexivity).
  assert (H2 : Forall (fun c => t_str c <> []) (cameras spec_experiment))
    by (repeat constructor; discriminate).
  assert (H3 : -2000000 = 0 \/ 2000000 <= Z.abs (-2000000))
    by (right; simpl; lia).
  exact (conj H1 (conj H2 (conj H3
           (unusable_frame_rate_raises spec_experiment 0 (-1) (-2000000) false no_key
              false fs_empty H1 H2 H3)))).
Defined.

(** ** The frame table as a whole *)

Lemma synchronize_rows cams fps t_cam frame_nums :
  synchronize cams fps = Ok (t_cam, frame_nums) ->
  exists t_latest_start,
    frame_nums
    = map (fun t => map (fun v => nearest_frame t_latest_start t v mod 65536) t_cam)
          cams.
Proof.
  intros H. apply synchronize_Ok_inv in H as (s & e & d & Hb & _ & Hl & Hfn).
  rewrite (rows_Ok _ _ _ _ _ _ _ Hb Hl) in Hfn. injection Hfn as <-.
  exists s. reflexivity.
Qed.

Lemma frame_table_rows_length cams fps t_cam frame_nums :
  synchronize cams fps = Ok (t_cam, frame_nums) ->
  length frame_nums = length cams /\
  Forall (fun row => length row = length t_cam) frame_nums.
Proof.
  intros H. destruct (synchronize_rows _ _ _ _ H) as (s & ->).
  split; [apply length_map|].
  apply Forall_forall. intros row Hrow.
  apply in_map_iff in Hrow as (t & <- & _). apply length_map.
Qed.

(** X4: the frame table has one row per camera and one column per entry
    of the virtual timeline, and every cell is a 16-bit unsigned value. *)
Theorem frame_table_shape cams fps t_cam frame_nums :
  synchronize cams fps = Ok (t_cam, frame_nums) ->
  length frame_nums = length cams /\
  Forall (fun row => length row = length t_cam /\
                     Forall (fun cell => 0 <= cell < 65536) row) frame_nums.
Proof.
  intros H. destruct (synchronize_rows _ _ _ _ H) as (s & ->).
  split; [apply length_map|].
  apply Forall_forall. intros row Hrow.
  apply in_map_iff in Hrow as (t & <- & _). split; [apply length_map|].
  apply Forall_forall. intros cell Hcell.
  apply in_map_iff in Hcell as (v & <- & _). apply Z.mod_pos_bound. lia.
Qed.

Lemma frame_table_shape_witness :
  synchronize spec_cams 1 = Ok (spec_t_cam, spec_frame_nums) /\
  length spec_frame_nums = length spec_cams /\
  Forall (fun row => length row = length spec_t_cam /\
                     Forall (fun cell => 0 <= cell < 65536) row) spec_frame_nums.
Proof.
  assert (H := synchronize_spec_example).
  exact (conj H (frame_table_shape _ _ _ _ H)).
Defined.

(** The bounds of the common coverage do not depend on the order of the
    cameras. *)
Lemma stream_bounds_Permutation cams cams' a b s e :
  Permutation cams cams' ->
  stream_bounds cams a b = Ok (s, e) ->
  stream_bounds cams' a b = Ok (s, e).
Proof.
  intros Hp Hb.
  pose proof (stream_bounds_Ok_inv _ _ _ _ _ Hb)
    as (Hne & (Hs1 & Hs2 & Hs3) & (He1 & He2 & He3)).
  destruct (stream_bounds_nonempty cams' a b) as (s' & e' & Hb').
  { eapply Permutation_Forall; eassumption. }
  pose proof (stream_bounds_Ok_inv _ _ _ _ _ Hb')
    as (_ & (Hs1' & Hs2' & Hs3') & (He1' & He2' & He3')).
  rewrite Hb'. f_equal.
  rewrite Forall_forall in Hs2, Hs2', He2, He2'.
  assert (Hin : forall t, In t cams <-> In t cams').
  { intros t. split; apply Permutation_in; [assumption|apply Permutation_sym, Hp]. }
  f_equal.
  - apply Z.le_antisymm.
    + destruct Hs3' as [->|Hex]; [assumption|].
      apply Exists_exists in Hex as (t & Ht & ->). apply Hs2, Hin, Ht.
    + destruct Hs3 as [->|Hex]; [assumption|].
      apply Exists_exists in Hex as (t & Ht & ->). apply Hs2', Hin, Ht.
  - apply Z.le_antisymm.
    + destruct He3 as [->|Hex]; [assumption|].
      apply Exists_exists in Hex as (t & Ht & ->). apply He2', Hin, Ht.
    + destruct He3' as [->|Hex]; [assumption|].
      apply Exists_exists in Hex as (t & Ht & ->). apply He2, Hin, Ht.
Qed.

(** X5: reordering the cameras leaves the virtual timeline as it is, and
    every row of the frame table follows its camera: the new table has
    one row per camera, and a stream that is camera [i] before the
    reordering and camera [j] after it has the same row at [i] in the old
    table and at [j] in the new one. *)
Theorem synchronize_camera_order cams cams' fps t_cam frame_nums :
  Permutation cams cams' ->
  synchronize cams fps = Ok (t_cam, frame_nums) ->
  exists frame_nums',
    synchronize cams' fps = Ok (t_cam, frame_nums') /\
    length frame_nums' = length cams' /\
    forall i j t,
      nth_error cams i = Some t -> nth_error cams' j = Some t ->
      exists row,
        nth_error frame_nums i = Some row /\ nth_error frame_nums' j = Some row.
Proof.
  intros Hp H.
  pose proof (synchronize_Ok_inv _ _ _ _ H) as (s & e & d & Hb & Hd & Hl & Hfn).
  rewrite (rows_Ok _ _ _ _ _ _ _ Hb Hl) in Hfn. injection Hfn as <-.
  pose proof (stream_bounds_Permutation _ _ _ _ _ _ Hp Hb) as Hb'.
  eexists. split; [|split].
  - unfold synchronize. rewrite Hb'. cbn [bind]. rewrite Hd. cbn [bind].
    rewrite Hl. cbn [bind]. rewrite (rows_Ok _ _ _ _ _ _ _ Hb' Hl). reflexivity.
  - apply length_map.
  - intros i j t Hi Hj. eexists.
    rewrite !nth_error_map, Hi, Hj. split; reflexivity.
Qed.

Lemma synchronize_camera_order_witness :
  Permutation spec_cams [camB; camA; camA; camB] /\
  synchronize spec_cams 1 = Ok (spec_t_cam, spec_frame_nums) /\
  exists frame_nums',
    synchronize [camB; camA; camA; camB] 1 = Ok (spec_t_cam, frame_nums') /\
    length frame_nums' = length [camB; camA; camA; camB] /\
    forall i j t,
      nth_error spec_cams i = Some t ->
      nth_error [camB; camA; camA; camB] j = Some t ->
      exists row,
        nth_error spec_frame_nums i = Some row /\
        nth_error frame_nums' j = Some row.
Proof.
  assert (H1 : Permutation spec_cams [camB; camA; camA; camB])
    by (apply perm_swap).
  assert (H2 := synchronize_spec_example).
  exact (conj H1 (conj H2 (synchronize_camera_order _ _ _ _ _ H1 H2))).
Defined.

(** ** The stitched video *)




(** A run that recomputes, once the synchronization succeeded with a
    non-empty timeline. *)
Lemma generate_multicam_video_run e t_start t_end fps visualize keys overwrite fs
      t_cam frame_nums :
  synchronize (map t_str (cameras e)) fps = Ok (t_cam, frame_nums) ->
  t_cam <> [] ->
  multicam_mp4 fs = None \/ overwrite = true ->
  generate_multicam_video e t_start t_end fps visualize keys overwrite fs
  = let '(s, r) :=
        write_frames frame_nums (hd 0 t_cam) t_start t_end visualize keys 0 t_cam
          {| videos_in := open_videos e; img := Black;
             rgb_data := {| quad0 := Black; quad1 := Black;
                            quad2 := Black; quad3 := Black |};
             video_out := [] |} in
    ({| multicam_mp4 := Some (video_out s);
        multicam_h5 := Some {| attr_t_start := Some (hd 0 t_cam);
                               attr_t_end := Some (last t_cam 0);
                               attr_fps := Some fps;
                               dataset_frame_nums := Some frame_nums |} |}, r).
Proof.
  intros Hs Hne Hrun. unfold generate_multicam_video.
  rewrite (running_gate _ _ Hrun), Hs.
  destruct t_cam as [|t0 rest]; [contradiction|].
  rewrite (last_cons_default t0 0 rest). reflexivity.
Qed.



(** X7: once the synchronization has produced a non-empty timeline the run
    always ends normally, whatever the videos contain and whatever keys
    are pressed: reading frames never stops it.  The alignment file it
    leaves holds the first and the last entry of the timeline, the frame
    rate and the frame table, and so does not depend on the clip window,
    on the visualization or on the keys. *)
Theorem run_completes_after_synchronization e t_start t_end fps visualize keys
        overwrite fs t_cam frame_nums :
  synchronize (map t_str (cameras e)) fps = Ok (t_cam, frame_nums) ->
  t_cam <> [] ->
  multicam_mp4 fs = None \/ overwrite = true ->
  exists video,
    generate_multicam_video e t_start t_end fps visualize keys overwrite fs
    = ({| multicam_mp4 := Some video;
          multicam_h5 := Some {| attr_t_start := Some (hd 0 t_cam);
                                 attr_t_end := Some (last t_cam 0);
                                 attr_fps := Some fps;
                                 dataset_frame_nums := Some frame_nums |} |}, Ok tt).
Proof.
  intros Hs Hne Hrun.
  rewrite (generate_multicam_video_run _ _ _ _ _ _ _ _ _ _ Hs Hne Hrun).
  pose proof (write_frames_never_raises frame_nums (hd 0 t_cam) t_start t_end
                visualize keys 0 t_cam
                {| videos_in := open_videos e; img := Black;
                   rgb_data := {| quad0 := Black; quad1 := Black;
                                  quad2 := Black; quad3 := Black |};
                   video_out := [] |}) as Hw.
  destruct (write_frames _ _ _ _ _ _ _ _ _) as [st r]. cbn [snd] in Hw. subst r.
  eexists. reflexivity.
Qed.

Lemma run_completes_after_synchronization_witness :
  synchronize (map t_str (cameras truncated_experiment)) 1
  = Ok (spec_t_cam, spec_frame_nums) /\
  spec_t_cam <> [] /\
  (multicam_mp4 fs_empty = None \/ false = true) /\
  exists video,
    generate_multicam_video truncated_experiment 0 (-1) 1 true (fun _ => 32) false
                            fs_empty
    = ({| multicam_mp4 := Some video;
          multicam_h5 := Some {| attr_t_start := Some (hd 0 spec_t_cam);
                                 attr_t_end := Some (last spec_t_cam 0);
                                 attr_fps := Some 1;
                                 dataset_frame_nums := Some spec_frame_nums |} |},
       Ok tt).
Proof.
  assert (H1 : synchronize (map t_str (cameras truncated_experiment)) 1
               = Ok (spec_t_cam, spec_frame_nums)) by (vm_compute; reflexivity).
  assert (H2 : spec_t_cam <> []) by discriminate.
  assert (H3 : multicam_mp4 fs_empty = None \/ false = true) by (left; reflexivity).
  exact (conj H1 (conj H2 (conj H3
           (run_completes_after_synchronization truncated_experiment 0 (-1) 1 true
              (fun _ => 32) false fs_empty spec_t_cam spec_frame_nums H1 H2 H3)))).
Defined.

(** X8: for a positive frame rate the timeline that [generate_video]
    rebuilds from the alignment file of a run is the timeline of that run
    without its last entry, hence one entry shorter than every row of the
    stored frame table. *)
Theorem rebuilt_timeline_lacks_last_entry e t_start t_end fps visualize keys
        overwrite fs t_cam frame_nums :
  synchronize (map t_str (cameras e)) fps = Ok (t_cam, frame_nums) ->
  t_cam <> [] ->
  multicam_mp4 fs = None \/ overwrite = true ->
  0 < fps ->
  exists h5 rebuilt,
    multicam_h5 (fst (generate_multicam_video e t_start t_end fps visualize keys
                                              overwrite fs)) = Some h5 /\
    dataset_frame_nums h5 = Some frame_nums /\
    reconstruct_t_cam h5 = Ok rebuilt /\
    rebuilt = removelast t_cam /\
    Forall (fun row => length row = S (length rebuilt)) frame_nums.
Proof.
  intros Hs Hne Hrun Hfps.
  destruct (reconstruct_drops_last e t_start t_end fps visualize keys overwrite fs
              t_cam frame_nums Hs Hrun Hne Hfps) as (h5 & Hh5 & Hre).
  exists h5, (removelast t_cam). split; [assumption|].
  rewrite (persisted_alignment e t_start t_end fps visualize keys overwrite fs
             t_cam frame_nums Hs Hrun Hne) in Hh5. injection Hh5 as <-.
  split; [reflexivity|]. split; [assumption|]. split; [reflexivity|].
  destruct (frame_table_rows_length _ _ _ _ Hs) as [_ Hrows].
  apply Forall_forall. intros row Hrow. rewrite Forall_forall in Hrows.
  rewrite (Hrows row Hrow), length_removelast.
  destruct t_cam; [contradiction|simpl; lia].
Qed.

Lemma rebuilt_timeline_lacks_last_entry_witness :
  synchronize (map t_str (cameras spec_experiment)) 1
  = Ok (spec_t_cam, spec_frame_nums) /\
  spec_t_cam <> [] /\
  (multicam_mp4 fs_empty = None \/ false = true) /\
  0 < 1 /\
  exists h5 rebuilt,
    multicam_h5 (fst (generate_multicam_video spec_experiment 0 (-1) 1 false no_key
                                              false fs_empty)) = Some h5 /\
    dataset_frame_nums h5 = Some spec_frame_nums /\
    reconstruct_t_cam h5 = Ok rebuilt /\
    rebuilt = removelast spec_t_cam /\
    Forall (fun row => length row = S (length rebuilt)) spec_frame_nums.
Proof.
  assert (H1 : synchronize (map t_str (cameras spec_experiment)) 1
               = Ok (spec_t_cam, spec_frame_nums)) by (vm_compute; reflexivity).
  assert (H2 : spec_t_cam <> []) by discriminate.
  assert (H3 : multicam_mp4 fs_empty = None \/ false = true) by (left; reflexivity).
  assert (H4 : 0 < 1) by lia.
  exact (conj H1 (conj H2 (conj H3 (conj H4
           (rebuilt_timeline_lacks_last_entry spec_experiment 0 (-1) 1 false no_key
              false fs_empty spec_t_cam spec_frame_nums H1 H2 H3 H4))))).
Defined.

(** ** The player loop as a whole *)

(** X9: started as [generate_video] starts it, the player loop never
    raises: neither the index expressions [t_cam[n]] nor the assertion on
    the frame read can fail, whatever the video, the timeline, the
    options and the keys. *)
Theorem playback_never_raises fuel o t_cam video weight_t0 keys ex :
  play fuel o t_cam (player_init video weight_t0 keys) <> Raise ex.
Proof.
  pose proof (play_never_raises fuel o t_cam (player_init video weight_t0 keys)
                ltac:(cbn; lia)) as H.
  intros E. rewrite E in H. exact H.
Qed.

Lemma py_index_nth {A} (l : list A) (d : A) i :
  0 <= i < Z.of_nat (length l) -> py_index l i = Ok (nth (Z.to_nat i) l d).
Proof.
  intros Hi. unfold py_index.
  destruct (Z.ltb_spec i 0); [lia|].
  destruct (Z.leb_spec 0 i); [|lia].
  destruct (Z.ltb_spec i (Z.of_nat (length l))); [|lia]. cbn [andb].
  destruct (nth_error l (Z.to_nat i)) eqn:E.
  - rewrite (nth_error_nth _ _ d E). reflexivity.
  - apply nth_error_None in E. lia.
Qed.

Lemma loop_body_untouched o t_cam video offset k pos w :
  (k < length t_cam)%nat ->
  loop_body o t_cam (untouched video offset k pos w)
  = Ok (Next (untouched video offset (S k)
                (if (pos <? length video)%nat then S pos else pos)
                (if opt_save_video o && shown_in_player o t_cam offset k
                 then w ++ [Z.of_nat k] else w))).
Proof.
  intros Hk. unfold loop_body, untouched.
  cbn [is_paused do_skip_frames negb orb video_in].
  assert (Hread : VideoCapture_read {| frames := video; pos_frames := pos |} Black
                  = (fst (fst (VideoCapture_read
                                 {| frames := video; pos_frames := pos |} Black)),
                     {| frames := video;
                        pos_frames := if (pos <? length video)%nat
                                      then S pos else pos |},
                     snd (VideoCapture_read
                            {| frames := video; pos_frames := pos |} Black))).
  { unfold VideoCapture_read. cbn [frames pos_frames].
    destruct (nth_error video pos) eqn:E.
    - assert (pos < length video)%nat
        by (apply nth_error_Some; congruence).
      destruct (Nat.ltb_spec pos (length video)); [reflexivity|lia].
    - apply nth_error_None in E.
      destruct (Nat.ltb_spec pos (length video)); [lia|reflexivity]. }
  pose proof (read_assert_passes {| frames := video; pos_frames := pos |} Black)
    as Hok.
  rewrite Hread. rewrite Hok. cbn [bind].
  unfold with_video, with_n. cbn [n is_paused refresh_weight do_skip_frames
    weight_to_cam_t_offset video_in pending_keys events written].
  replace (Z.of_nat k - 1 + 1) with (Z.of_nat (S k) - 1) by lia.
  rewrite (py_index_nth t_cam 0) by lia. cbn [bind].
  replace (Z.to_nat (Z.of_nat (S k) - 1)) with k by lia.
  unfold shown_in_player.
  destruct (player_outside_clip _ _ _); cbn [negb].
  - rewrite andb_false_r. reflexivity.
  - rewrite andb_true_r. unfold with_written.
    cbn [n is_paused refresh_weight do_skip_frames
      weight_to_cam_t_offset video_in pending_keys events written].
    assert (Hkey : forall cb q,
              is_paused q = false -> refresh_weight q = true ->
              do_skip_frames q = false ->
              key_command cb t_cam (-1) q = Ok (Next q)).
    { intros cb [qn qp qr qs qo qv qk qe qw]. cbn [is_paused refresh_weight
        do_skip_frames]. intros -> -> ->. reflexivity. }
    destruct (opt_save_video o), (opt_visualize o); unfold waitKeyEx;
      cbn [pending_keys is_paused bind]; rewrite ?Hkey by reflexivity;
      repeat f_equal; lia.
Qed.

Lemma play_S fuel o t_cam p :
  play (S fuel) o t_cam p
  = if n p <? Z.of_nat (length t_cam) - 1
    then c <- loop_body o t_cam p ;;
         match c with
         | Next p' => play fuel o t_cam p'
         | Break p' => Ok p'
         end
    else Ok p.
Proof. reflexivity. Qed.

Lemma play_untouched o t_cam video offset m :
  forall k pos w,
    (k + m = length t_cam)%nat -> (pos <= length video)%nat ->
    play (S m) o t_cam (untouched video offset k pos w)
    = Ok (untouched video offset (length t_cam)
            (Nat.min (pos + m) (length video))
            (w ++ if opt_save_video o
                  then map Z.of_nat (filter (shown_in_player o t_cam offset) (seq k m))
                  else [])).
Proof.
  induction m as [|m IH]; intros k pos w Hk Hpos; rewrite play_S.
  - change (n (untouched video offset k pos w)) with (Z.of_nat k - 1).
    destruct (Z.ltb_spec (Z.of_nat k - 1) (Z.of_nat (length t_cam) - 1)); [lia|].
    replace k with (length t_cam) by lia.
    rewrite Nat.add_0_r, Nat.min_l by assumption.
    destruct (opt_save_video o); cbn [seq filter map]; rewrite app_nil_r; reflexivity.
  - change (n (untouched video offset k pos w)) with (Z.of_nat k - 1).
    destruct (Z.ltb_spec (Z.of_nat k - 1) (Z.of_nat (length t_cam) - 1)); [|lia].
    rewrite loop_body_untouched by lia. cbn [bind].
    rewrite IH; [|lia|destruct (Nat.ltb_spec pos (length video)); lia].
    f_equal. f_equal.
    + destruct (Nat.ltb_spec pos (length video)); lia.
    + cbn [seq filter]. destruct (opt_save_video o); cbn [andb].
      * destruct (shown_in_player o t_cam offset k); cbn [map];
          [rewrite <- app_assoc|]; reflexivity.
      * reflexivity.
Qed.

(** X10: a playback without any key press ends after one pass per timeline
    entry, with the cursor on the last entry, the initial time offset (13
    s after the first weight sample) and the pause flag unchanged; it has
    read as many frames as the video and the timeline both have, and with
    [save_video] it has written exactly the cursors whose time lies in the
    clip window. *)
Theorem untouched_playback o t_cam video weight_t0 :
  exists p,
    play (S (length t_cam)) o t_cam (player_init video weight_t0 []) = Ok p /\
    n p = Z.of_nat (length t_cam) - 1 /\
    weight_to_cam_t_offset p = weight_t0 + 13000000 /\
    is_paused p = false /\
    pos_frames (video_in p) = Nat.min (length t_cam) (length video) /\
    written p
    = if opt_save_video o
      then map Z.of_nat (filter (shown_in_player o t_cam (weight_t0 + 13000000))
                                (seq 0 (length t_cam)))
      else [].
Proof.
  eexists. split.
  - apply (play_untouched o t_cam video (weight_t0 + 13000000) (length t_cam)
             0%nat 0%nat []); lia.
  - repeat split.
Qed.

Lemma key_command_offset cb t_cam k p delta :
  offset_step k = Some delta ->
  key_command cb t_cam k p
  = Ok (Next (after_key (shift_offset (with_flags p (is_paused p) false false) delta))).
Proof.
  intros Hk. unfold offset_step in Hk.
  destruct (Z.eqb_spec k ord_a) as [->|_]; [|
  destruct (Z.eqb_spec k ord_d) as [->|_]; [|
  destruct (Z.eqb_spec k ord_w) as [->|_]; [|
  destruct (Z.eqb_spec k ord_s) as [->|_]; [|discriminate]]]];
    injection Hk as <-; reflexivity.
Qed.

Lemma no_clip_window o curr_t :
  (opt_t_start o <= 0)%Q -> (opt_t_end o <= 0)%Q ->
  player_outside_clip curr_t (opt_t_start o) (opt_t_end o) = false.
Proof.
  intros Hs He. unfold player_outside_clip.
  destruct (Qlt_le_dec 0 (opt_t_start o)) as [H|_];
    [exfalso; exact (Qlt_not_le _ _ H Hs)|].
  destruct (Qlt_le_dec 0 (opt_t_end o)) as [H|_];
    [exfalso; exact (Qlt_not_le _ _ H He)|]. reflexivity.
Qed.

(** One pass of the loop on a paused player that receives an offset key. *)
Lemma paused_offset_pass o t_cam k delta ks p :
  opt_visualize o = true ->
  (opt_t_start o <= 0)%Q -> (opt_t_end o <= 0)%Q ->
  is_paused p = true -> do_skip_frames p = false ->
  0 <= n p < Z.of_nat (length t_cam) ->
  offset_step k = Some delta ->
  pending_keys p = k :: ks ->
  exists p1,
    loop_body o t_cam p = Ok (Next p1) /\
    weight_to_cam_t_offset p1 = weight_to_cam_t_offset p + delta /\
    n p1 = n p /\ video_in p1 = video_in p /\
    is_paused p1 = true /\ do_skip_frames p1 = false /\
    pending_keys p1 = ks /\ events p1 = events p /\
    written p1 = written p ++ (if opt_save_video o then [n p] else []).
Proof.
  intros Hv Hs He Hp Hskip Hn Hk Hkeys.
  destruct p as [n0 paused refresh skip offset video keys evs wr].
  cbn [is_paused do_skip_frames n pending_keys weight_to_cam_t_offset video_in
       events written] in *.
  subst paused skip keys. unfold loop_body.
  cbn [is_paused do_skip_frames refresh_weight n weight_to_cam_t_offset
       negb orb bind].
  assert (Hclip : (if refresh
                   then t <- py_index t_cam n0 ;;
                        Ok (player_outside_clip (total_seconds (t - offset))
                              (opt_t_start o) (opt_t_end o))
                   else Ok false) = Ok false).
  { destruct refresh; [|reflexivity].
    rewrite (py_index_nth t_cam 0 n0 Hn). cbn [bind].
    rewrite no_clip_window by assumption. reflexivity. }
  rewrite Hclip. cbn [bind]. rewrite Hv.
  destruct (opt_save_video o); unfold waitKeyEx, with_written;
    cbn [pending_keys bind n is_paused refresh_weight do_skip_frames
         weight_to_cam_t_offset video_in events written with_keys];
    rewrite (key_command_offset _ _ _ _ _ Hk);
    (eexists; split; [reflexivity|]);
    cbn; rewrite ?app_nil_r; repeat split.
Qed.

(** X11: while the player is paused on a frame and no clip window is set,
    a sequence of time-offset keys ([a], [d], [w], [s]) takes one pass of
    the loop per key, never ends the loop and adds up: after these passes
    the time offset is the old one plus the sum of the steps (one second
    for [a]/[d], a tenth for [w]/[s]), the keys are consumed, and the
    cursor, the video position, the pause and the recorded events are as
    they were; with [save_video] every pass writes the current frame once
    more. *)
Theorem offset_commands_add_up o t_cam ks steps rest p fuel :
  opt_visualize o = true ->
  (opt_t_start o <= 0)%Q -> (opt_t_end o <= 0)%Q ->
  is_paused p = true -> do_skip_frames p = false ->
  0 <= n p < Z.of_nat (length t_cam) - 1 ->
  map offset_step ks = map Some steps ->
  pending_keys p = ks ++ rest ->
  exists p',
    play (length ks + fuel) o t_cam p = play fuel o t_cam p' /\
    weight_to_cam_t_offset p' = weight_to_cam_t_offset p + fold_right Z.add 0 steps /\
    n p' = n p /\ video_in p' = video_in p /\
    is_paused p' = true /\ do_skip_frames p' = false /\
    pending_keys p' = rest /\ events p' = events p /\
    written p'
    = written p ++ (if opt_save_video o then repeat (n p) (length ks) else []).
Proof.
  intros Hv Hs He. revert steps p.
  induction ks as [|k ks IH]; intros steps p Hp Hskip Hn Hsteps Hkeys.
  - destruct steps; [|discriminate]. exists p. cbn [length Nat.add fold_right repeat].
    rewrite Z.add_0_r. destruct (opt_save_video o); rewrite app_nil_r;
      repeat split; assumption.
  - destruct steps as [|d steps]; [discriminate|]. cbn [map] in Hsteps.
    injection Hsteps as Hk Hsteps. cbn [app] in Hkeys.
    destruct (paused_offset_pass o t_cam k d (ks ++ rest) p Hv Hs He Hp Hskip
                ltac:(lia) Hk Hkeys)
      as (p1 & Hbody & Ho1 & Hn1 & Hv1 & Hp1 & Hs1 & Hk1 & He1 & Hw1).
    destruct (IH steps p1 Hp1 Hs1 ltac:(lia) Hsteps Hk1)
      as (p' & Hplay & Ho' & Hn' & Hv' & Hp' & Hs' & Hk' & He' & Hw').
    exists p'. split.
    + cbn [length Nat.add]. rewrite play_S.
      destruct (Z.ltb_spec (n p) (Z.of_nat (length t_cam) - 1)); [|lia].
      rewrite Hbody. cbn [bind]. exact Hplay.
    + rewrite Hn1 in Hw'.
      rewrite Ho', Ho1, Hn', Hn1, Hv', Hv1, He', He1, Hw', Hw1.
      cbn [fold_right length repeat].
      repeat split; try assumption; try lia.
      destruct (opt_save_video o); rewrite <- app_assoc; reflexivity.
Qed.

Lemma offset_commands_add_up_witness :
  opt_visualize plain_session = true /\
  (opt_t_start plain_session <= 0)%Q /\
  (opt_t_end plain_session <= 0)%Q /\
  is_paused paused_player = true /\
  do_skip_frames paused_player = false /\
  0 <= n paused_player < Z.of_nat (length session_t_cam) - 1 /\
  map offset_step [ord_a; ord_w; ord_d; ord_d]
  = map Some [-1000000; -100000; 1000000; 1000000] /\
  pending_keys paused_player = [ord_a; ord_w; ord_d; ord_d] ++ [ord_space] /\
  exists p',
    play (length [ord_a; ord_w; ord_d; ord_d] + 1) plain_session session_t_cam
         paused_player
    = play 1 plain_session session_t_cam p' /\
    weight_to_cam_t_offset p'
    = weight_to_cam_t_offset paused_player
      + fold_right Z.add 0 [-1000000; -100000; 1000000; 1000000] /\
    n p' = n paused_player /\ video_in p' = video_in paused_player /\
    is_paused p' = true /\ do_skip_frames p' = false /\
    pending_keys p' = [ord_space] /\ events p' = events paused_player /\
    written p'
    = written paused_player
      ++ (if opt_save_video plain_session
          then repeat (n paused_player) (length [ord_a; ord_w; ord_d; ord_d])
          else []).
Proof.
  assert (H1 : opt_visualize plain_session = true) by reflexivity.
  assert (H2 : (opt_t_start plain_session <= 0)%Q) by (vm_compute; discriminate).
  assert (H3 : (opt_t_end plain_session <= 0)%Q) by (vm_compute; discriminate).
  assert (H4 : is_paused paused_player = true) by reflexivity.
  assert (H5 : do_skip_frames paused_player = false) by reflexivity.
  assert (H6 : 0 <= n paused_player < Z.of_nat (length session_t_cam) - 1)
    by (vm_compute; split; [discriminate|reflexivity]).
  assert (H7 : map offset_step [ord_a; ord_w; ord_d; ord_d]
               = map Some [-1000000; -100000; 1000000; 1000000]) by reflexivity.
  assert (H8 : pending_keys paused_player
               = [ord_a; ord_w; ord_d; ord_d] ++ [ord_space]) by reflexivity.
  exact (conj H1 (conj H2 (conj H3 (conj H4 (conj H5 (conj H6 (conj H7 (conj H8
           (offset_commands_add_up plain_session session_t_cam
              [ord_a; ord_w; ord_d; ord_d] [-1000000; -100000; 1000000; 1000000]
              [ord_space] paused_player 1 H1 H2 H3 H4 H5 H6 H7 H8))))))))).
Defined.

(** X12: a paused player whose current frame lies outside the clip window
    while the weight plot is due for a refresh repeats the same pass for
    ever: the pass ends at the [continue] of the clip test, before any key
    is polled, and changes nothing. *)
Theorem paused_outside_clip_window_hangs o t_cam p t :
  is_paused p = true ->
  do_skip_frames p = false ->
  refresh_weight p = true ->
  n p < Z.of_nat (length t_cam) - 1 ->
  py_index t_cam (n p) = Ok t ->
  player_outside_clip (total_seconds (t - weight_to_cam_t_offset p))
                      (opt_t_start o) (opt_t_end o) = true ->
  loop_body o t_cam p = Ok (Next p) /\
  forall fuel, play fuel o t_cam p = Diverge.
Proof.
  intros Hp Hs Hr Hn Ht Hclip.
  assert (Hbody : loop_body o t_cam p = Ok (Next p)).
  { unfold loop_body. rewrite Hp, Hs. cbn [negb orb bind]. rewrite Hr, Ht.
    cbn [bind]. rewrite Hclip. reflexivity. }
  split; [assumption|].
  induction fuel as [|fuel IH]; [reflexivity|].
  rewrite play_S. destruct (Z.ltb_spec (n p) (Z.of_nat (length t_cam) - 1)); [|lia].
  rewrite Hbody. cbn [bind]. assumption.
Qed.

(** The clipped session reaches the hung state after eight passes. *)
Lemma clipped_session_reaches_hung_player fuel :
  play (8 + fuel) clipped_session session_t_cam
       (player_init (map (Frame 0) (seq 0 31)) 0 session_keys)
  = play fuel clipped_session session_t_cam hung_player.
Proof. reflexivity. Qed.

Lemma paused_outside_clip_window_hangs_witness :
  is_paused hung_player = true /\
  do_skip_frames hung_player = false /\
  refresh_weight hung_player = true /\
  n hung_player < Z.of_nat (length session_t_cam) - 1 /\
  py_index session_t_cam (n hung_player) = Ok 20000000 /\
  player_outside_clip
    (total_seconds (20000000 - weight_to_cam_t_offset hung_player))
    (opt_t_start clipped_session) (opt_t_end clipped_session) = true /\
  loop_body clipped_session session_t_cam hung_player = Ok (Next hung_player) /\
  forall fuel, play fuel clipped_session session_t_cam hung_player = Diverge.
Proof.
  assert (H1 : is_paused hung_player = true) by reflexivity.
  assert (H2 : do_skip_frames hung_player = false) by reflexivity.
  assert (H3 : refresh_weight hung_player = true) by reflexivity.
  assert (H4 : n hung_player < Z.of_nat (length session_t_cam) - 1)
    by (vm_compute; reflexivity).
  assert (H5 : py_index session_t_cam (n hung_player) = Ok 20000000)
    by reflexivity.
  assert (H6 : player_outside_clip
                 (total_seconds (20000000 - weight_to_cam_t_offset hung_player))
                 (opt_t_start clipped_session) (opt_t_end clipped_session) = true)
    by reflexivity.
  exact (conj H1 (conj H2 (conj H3 (conj H4 (conj H5 (conj H6
           (paused_outside_clip_window_hangs clipped_session session_t_cam
              hung_player 20000000 H1 H2 H3 H4 H5 H6))))))).
Defined.

(** ** The length of the stitched video *)

Lemma read_cameras_video_out frame_nums n cams s :
  video_out (fst (read_cameras frame_nums n cams s)) = video_out s.
Proof.
  revert s. induction cams as [|i cams IH]; intros s; [reflexivity|].
  cbn [read_cameras].
  pose proof (read_assert_passes
                (VideoCapture_set (nth i (videos_in s) no_video)
                                  (nth n (nth i frame_nums []) 0)) (img s)) as Hok.
  destruct (VideoCapture_read _ _) as [[ok v'] img']. cbn [fst] in Hok.
  rewrite Hok. rewrite IH. reflexivity.
Qed.

Lemma write_frames_length frame_nums t0 t_start t_end keys ts :
  forall n s,
    length (video_out (fst (write_frames frame_nums t0 t_start t_end false keys
                                         n ts s)))
    = (length (video_out s)
       + length (columns_in_window t0 t_start t_end n ts))%nat.
Proof.
  induction ts as [|t ts IH]; intros n s; [cbn; lia|].
  cbn [write_frames]. unfold columns_in_window. cbn [length seq combine filter snd].
  destruct (outside_clip (total_seconds (t - t0)) t_start t_end); cbn [negb].
  - apply IH.
  - pose proof (read_cameras_never_raises frame_nums n
                  (seq 0 (length frame_nums)) s) as Hr.
    pose proof (read_cameras_video_out frame_nums n
                  (seq 0 (length frame_nums)) s) as Hv.
    destruct (read_cameras _ _ _ _) as [s1 r]. cbn [snd fst] in Hr, Hv. subst r.
    cbn [andb]. rewrite IH. unfold write_composite. cbn [video_out length].
    rewrite length_app, Hv. cbn [length].
    fold (columns_in_window t0 t_start t_end (S n) ts). lia.
Qed.

Lemma columns_all_in_window t0 t_start t_end n ts :
  (t_start <= 0)%Q -> (t_end <= 0)%Q -> Forall (fun t => t0 <= t) ts ->
  length (columns_in_window t0 t_start t_end n ts) = length ts.
Proof.
  intros Hs He Hall. revert n. induction Hall as [|t ts Ht _ IH]; intros n;
    [reflexivity|].
  unfold columns_in_window. cbn [length seq combine filter snd].
  assert (Hin : outside_clip (total_seconds (t - t0)) t_start t_end = false).
  { unfold outside_clip.
    assert (H0 : (0 <= total_seconds (t - t0))%Q)
      by (unfold Qle, total_seconds; cbn [Qnum Qden]; lia).
    destruct (Qlt_le_dec (total_seconds (t - t0)) t_start) as [H|_];
      [exfalso; apply (Qlt_irrefl 0);
       apply Qle_lt_trans with (1 := H0), Qlt_le_trans with (1 := H); assumption|].
    destruct (Qlt_le_dec 0 t_end) as [H|_];
      [exfalso; apply (Qlt_irrefl 0), Qlt_le_trans with (1 := H); assumption|].
    reflexivity. }
  rewrite Hin. cbn [negb length]. f_equal. apply IH.
Qed.

(** A run without visualization, once the synchronization succeeded with
    a non-empty timeline. *)
Lemma generate_multicam_video_result e t_start t_end fps keys overwrite fs
      t_cam frame_nums :
  synchronize (map t_str (cameras e)) fps = Ok (t_cam, frame_nums) ->
  t_cam <> [] ->
  multicam_mp4 fs = None \/ overwrite = true ->
  exists video,
    generate_multicam_video e t_start t_end fps false keys overwrite fs
    = ({| multicam_mp4 := Some video;
          multicam_h5 := Some {| attr_t_start := Some (hd 0 t_cam);
                                 attr_t_end := Some (last t_cam 0);
                                 attr_fps := Some fps;
                                 dataset_frame_nums := Some frame_nums |} |}, Ok tt) /\
    length video = length (columns_in_window (hd 0 t_cam) t_start t_end 0 t_cam) /\
    ((t_start <= 0)%Q -> (t_end <= 0)%Q -> length video = length t_cam).
Proof.
  intros Hs Hne Hrun.
  rewrite (generate_multicam_video_run _ _ _ _ _ _ _ _ _ _ Hs Hne Hrun).
  set (s0 := {| videos_in := open_videos e; img := Black;
                rgb_data := {| quad0 := Black; quad1 := Black;
                               quad2 := Black; quad3 := Black |};
                video_out := [] |}).
  pose proof (write_frames_never_raises frame_nums (hd 0 t_cam) t_start t_end
                false keys 0 t_cam s0) as Hw.
  pose proof (write_frames_length frame_nums (hd 0 t_cam) t_start t_end keys
                t_cam 0 s0) as Hlen.
  destruct (write_frames _ _ _ _ _ _ _ _ _) as [st r]. cbn [snd fst] in Hw, Hlen.
  subst r. eexists. split; [reflexivity|]. cbn [video_out s0 length] in Hlen.
  split; [exact Hlen|].
  intros H1 H2. rewrite Hlen. apply columns_all_in_window; try assumption.
  apply Forall_forall. intros t Ht. destruct (In_nth _ _ 0 Ht) as (k & Hk & <-).
  replace (hd 0 t_cam) with (nth 0 t_cam 0) by (destruct t_cam; reflexivity).
  apply (synchronize_timeline_sorted _ _ _ _ Hs). lia.
Qed.

(** ** Running again over existing output *)

(** C5 (amended): the run is skipped exactly when the stitched video
    exists and [overwrite] is false: it then returns at once and leaves
    the video and the alignment file, hence the stored frame table, as
    they are.  In every other case (no video, even if an alignment file
    exists, or [overwrite=True]) a run whose synchronization gives a
    non-empty timeline ends normally and replaces both files, whatever
    they held: the alignment file holds the first and the last entry of
    the recomputed timeline, the frame rate and the recomputed frame
    table, and without visualization the new video has one frame per
    timeline entry inside the clip window. *)
Theorem rerun_keeps_or_replaces_output e t_start t_end fps visualize keys overwrite fs :
  (forall video,
     multicam_mp4 fs = Some video -> overwrite = false ->
     generate_multicam_video e t_start t_end fps visualize keys overwrite fs
     = (fs, Ok tt)) /\
  (forall t_cam frame_nums,
     multicam_mp4 fs = None \/ overwrite = true ->
     synchronize (map t_str (cameras e)) fps = Ok (t_cam, frame_nums) ->
     t_cam <> [] ->
     exists video',
       generate_multicam_video e t_start t_end fps visualize keys overwrite fs
       = ({| multicam_mp4 := Some video';
             multicam_h5 := Some {| attr_t_start := Some (hd 0 t_cam);
                                    attr_t_end := Some (last t_cam 0);
                                    attr_fps := Some fps;
                                    dataset_frame_nums := Some frame_nums |} |},
          Ok tt) /\
       (visualize = false ->
        length video'
        = length (columns_in_window (hd 0 t_cam) t_start t_end 0 t_cam))).
Proof.
  split.
  - intros video Hv ->. unfold generate_multicam_video. rewrite Hv. reflexivity.
  - intros t_cam frame_nums Hrun Hs Hne.
    rewrite (generate_multicam_video_run _ _ _ _ _ _ _ _ _ _ Hs Hne Hrun).
    set (s0 := {| videos_in := open_videos e; img := Black;
                  rgb_data := {| quad0 := Black; quad1 := Black;
                                 quad2 := Black; quad3 := Black |};
                  video_out := [] |}).
    pose proof (write_frames_never_raises frame_nums (hd 0 t_cam) t_start t_end
                  visualize keys 0 t_cam s0) as Hw.
    destruct (write_frames frame_nums (hd 0 t_cam) t_start t_end visualize keys
                           0 t_cam s0) as [st r] eqn:E.
    cbn [snd] in Hw. subst r. eexists. split; [reflexivity|].
    intros ->.
    pose proof (write_frames_length frame_nums (hd 0 t_cam) t_start t_end keys
                  t_cam 0 s0) as Hlen.
    rewrite E in Hlen. exact Hlen.
Qed.

(** The two halves of [rerun_keeps_or_replaces_output] on the end-to-end
    example: over the files of a first run, a run without [overwrite]
    changes nothing, and a run with [overwrite] at two frames per second
    replaces the alignment file and writes a video of four frames. *)
Lemma rerun_keeps_or_replaces_output_example :
  (generate_multicam_video spec_experiment 0 (-1) 1 false no_key false
     {| multicam_mp4 := Some [Black; Black]; multicam_h5 := Some spec_alignment |}
   = ({| multicam_mp4 := Some [Black; Black]; multicam_h5 := Some spec_alignment |},
      Ok tt)) /\
  exists video',
    generate_multicam_video spec_experiment 0 (-1) 2 false no_key true
      {| multicam_mp4 := Some [Black; Black]; multicam_h5 := Some spec_alignment |}
    = ({| multicam_mp4 := Some video';
          multicam_h5 :=
            Some {| attr_t_start := Some 100000; attr_t_end := Some 1600000;
                    attr_fps := Some 2;
                    dataset_frame_nums :=
                      Some [[0; 1; 1; 2]; [0; 0; 1; 1]; [0; 1; 1; 2]; [0; 0; 1; 1]] |} |},
       Ok tt) /\
    (false = false -> length video' = 4%nat).
Proof.
  assert (H1 : multicam_mp4 {| multicam_mp4 := Some [Black; Black];
                               multicam_h5 := Some spec_alignment |}
               = Some [Black; Black]) by reflexivity.
  assert (H2 : multicam_mp4 {| multicam_mp4 := Some [Black; Black];
                               multicam_h5 := Some spec_alignment |} = None
               \/ true = true) by (right; reflexivity).
  assert (H3 : synchronize (map t_str (cameras spec_experiment)) 2
               = Ok ([100000; 600000; 1100000; 1600000],
                     [[0; 1; 1; 2]; [0; 0; 1; 1]; [0; 1; 1; 2]; [0; 0; 1; 1]]))
    by (vm_compute; reflexivity).
  assert (H4 : [100000; 600000; 1100000; 1600000] <> []) by discriminate.
  exact (conj
           (proj1 (rerun_keeps_or_replaces_output spec_experiment 0 (-1) 1 false
                     no_key false _) _ H1 eq_refl)
           (proj2 (rerun_keeps_or_replaces_output spec_experiment 0 (-1) 2 false
                     no_key true _) _ _ H2 H3 H4)).
Defined.

(** C5 as stated fails: an existing alignment file does not stop the
    run.  With the alignment file of a first run present and the video
    missing, a run without [overwrite] recomputes and writes a video of
    two frames; at another frame rate it also replaces the stored frame
    table. *)
Lemma rerun_counterexample :
  (exists video,
     generate_multicam_video spec_experiment 0 (-1) 1 false no_key false
       {| multicam_mp4 := None; multicam_h5 := Some spec_alignment |}
     = ({| multicam_mp4 := Some video; multicam_h5 := Some spec_alignment |}, Ok tt) /\
     length video = 2%nat) /\
  (exists fs h5,
     generate_multicam_video spec_experiment 0 (-1) 2 false no_key false
       {| multicam_mp4 := None; multicam_h5 := Some spec_alignment |}
     = (fs, Ok tt) /\
     multicam_h5 fs = Some h5 /\
     dataset_frame_nums h5 <> dataset_frame_nums spec_alignment).
Proof.
  split.
  - eexists. split; [vm_compute; reflexivity|reflexivity].
  - eexists _, _. split; [vm_compute; reflexivity|].
    split; [reflexivity|]. discriminate.
Qed.

(** X13: without visualization the stitched video gets exactly one frame
    per timeline entry inside the clip window, whatever the camera videos
    contain, and one frame per timeline entry when no clip window is set
    ([t_start <= 0] and [t_end <= 0]). *)
Theorem stitched_video_length e t_start t_end fps keys overwrite fs t_cam frame_nums :
  synchronize (map t_str (cameras e)) fps = Ok (t_cam, frame_nums) ->
  t_cam <> [] ->
  multicam_mp4 fs = None \/ overwrite = true ->
  exists video h5,
    generate_multicam_video e t_start t_end fps false keys overwrite fs
    = ({| multicam_mp4 := Some video; multicam_h5 := Some h5 |}, Ok tt) /\
    length video = length (columns_in_window (hd 0 t_cam) t_start t_end 0 t_cam) /\
    ((t_start <= 0)%Q -> (t_end <= 0)%Q -> length video = length t_cam).
Proof.
  intros Hs Hne Hrun.
  destruct (generate_multicam_video_result e t_start t_end fps keys overwrite fs
              t_cam frame_nums Hs Hne Hrun) as (video & -> & Hlen & Hall).
  eexists _, _. split; [reflexivity|]. split; assumption.
Qed.

Lemma stitched_video_length_witness :
  synchronize (map t_str (cameras spec_experiment)) 1
  = Ok (spec_t_cam, spec_frame_nums) /\
  spec_t_cam <> [] /\
  (multicam_mp4 fs_empty = None \/ false = true) /\
  exists video h5,
    generate_multicam_video spec_experiment (1 # 2) (-1) 1 false no_key false fs_empty
    = ({| multicam_mp4 := Some video; multicam_h5 := Some h5 |}, Ok tt) /\
    length video
    = length (columns_in_window (hd 0 spec_t_cam) (1 # 2) (-1) 0 spec_t_cam) /\
    ((1 # 2 <= 0)%Q -> (-1 <= 0)%Q -> length video = length spec_t_cam).
Proof.
  assert (H1 : synchronize (map t_str (cameras spec_experiment)) 1
               = Ok (spec_t_cam, spec_frame_nums)) by (vm_compute; reflexivity).
  assert (H2 : spec_t_cam <> []) by discriminate.
  assert (H3 : multicam_mp4 fs_empty = None \/ false = true) by (left; reflexivity).
  exact (conj H1 (conj H2 (conj H3
           (stitched_video_length spec_experiment (1 # 2) (-1) 1 no_key false fs_empty
              spec_t_cam spec_frame_nums H1 H2 H3)))).
Defined.

(** ** generate_video as a whole *)



(** X15: when the stitched video exists but its alignment file does not,
    [generate_video] with a negative camera id regenerates nothing (the
    existence test looks at the video only) and fails on opening the
    missing alignment file. *)
Theorem generate_video_needs_alignment_file e camera_id weight_t o fps keys fuel
        video :
  camera_id < 0 ->
  generate_video e camera_id weight_t o fps keys fuel
                 {| multicam_mp4 := Some video; multicam_h5 := None |}
  = ({| multicam_mp4 := Some video; multicam_h5 := None |}, GvOSError).
Proof.
  intros Hid. unfold generate_video, open_source.
  destruct (Z.ltb_spec camera_id 0); [reflexivity|lia].
Qed.

Lemma generate_video_needs_alignment_file_witness :
  -1 < 0 /\
  generate_video spec_experiment (-1) session_weight_t plain_session 1 [] 3
                 {| multicam_mp4 := Some [Black]; multicam_h5 := None |}
  = ({| multicam_mp4 := Some [Black]; multicam_h5 := None |}, GvOSError).
Proof.
  assert (H1 : -1 < 0) by lia.
  exact (conj H1 (generate_video_needs_alignment_file spec_experiment (-1) session_weight_t
                    plain_session 1 [] 3 [Black] H1)).
Defined.

(** X16: with a camera id that is not negative [generate_video] never
    creates or changes the stitched video or the alignment file, and a
    camera id of 0 or above 4 fails on the missing timestamp file of that
    camera. *)
Theorem generate_video_single_camera e camera_id weight_t o fps keys fuel fs :
  0 <= camera_id ->
  fst (generate_video e camera_id weight_t o fps keys fuel fs) = fs /\
  (camera_id = 0 \/ 4 < camera_id ->
   snd (generate_video e camera_id weight_t o fps keys fuel fs) = GvOSError).
Proof.
  intros Hid. unfold generate_video, open_source.
  destruct (Z.ltb_spec camera_id 0); [lia|].
  destruct (Z.eqb_spec camera_id 0) as [->|Hn].
  - split; [reflexivity|]. intros _. reflexivity.
  - destruct (nth_error (cameras e) (Z.to_nat (camera_id - 1))) as [c|] eqn:E.
    + split.
      * destruct weight_t; [reflexivity|]. destruct (play _ _ _ _); reflexivity.
      * intros [H0|H4]; [contradiction|].
        assert (Hlt : (Z.to_nat (camera_id - 1) < length (cameras e))%nat)
          by (apply nth_error_Some; congruence).
        cbn in Hlt. lia.
    + split; reflexivity.
Qed.

Lemma generate_video_single_camera_witness :
  0 <= 5 /\
  fst (generate_video spec_experiment 5 session_weight_t plain_session 1 [] 3 fs_empty)
  = fs_empty /\
  (5 = 0 \/ 4 < 5 ->
   snd (generate_video spec_experiment 5 session_weight_t plain_session 1 [] 3 fs_empty)
   = GvOSError).
Proof.
  assert (H1 : 0 <= 5) by lia.
  exact (conj H1 (generate_video_single_camera spec_experiment 5 session_weight_t
                    plain_session 1 [] 3 fs_empty H1)).
Defined.

(* ===================================================================== *)
(** ** Further properties of aux_tools.py *)
(* ===================================================================== *)

(** *** date_range *)

Lemma timeline_length_unique t_start t_end d m :
  0 < d ->
  (forall k, (k < m)%nat <-> t_start + Z.of_nat k * d < t_end) ->
  timeline_length t_start t_end d = m.
Proof.
  intros Hd Hm.
  pose proof (timeline_length_lt t_start t_end d) as Hl.
  set (L := timeline_length t_start t_end d) in *.
  destruct (Nat.lt_trichotomy L m) as [H|[H|H]]; [|assumption|].
  - pose proof (proj1 (Hm L) H) as H1. apply (Hl L Hd) in H1. lia.
  - pose proof (proj1 (Hl m Hd) H) as H1. apply Hm in H1. lia.
Qed.

(** X17: for a positive step, a range can be cut at any of its grid points
    [t_start + k * t_delta] that is not after [t_end]: the range up to
    the cut has exactly [k] entries, and the whole range is that part
    followed by the range that starts at the cut. *)
Theorem date_range_cut t_start t_end t_delta k :
  0 < t_delta ->
  t_start + Z.of_nat k * t_delta <= t_end ->
  exists before after,
    date_range t_start (t_start + Z.of_nat k * t_delta) t_delta = Ok before /\
    date_range (t_start + Z.of_nat k * t_delta) t_end t_delta = Ok after /\
    length before = k /\
    date_range t_start t_end t_delta = Ok (before ++ after).
Proof.
  intros Hd Hcut.
  set (t_mid := t_start + Z.of_nat k * t_delta) in *.
  destruct (date_range_positive t_start t_mid t_delta Hd) as (l1 & E1 & L1 & N1).
  destruct (date_range_positive t_mid t_end t_delta Hd) as (l2 & E2 & L2 & N2).
  destruct (date_range_positive t_start t_end t_delta Hd) as (l & E & L & N).
  assert (K1 : length l1 = k).
  { rewrite L1. apply timeline_length_unique; [assumption|].
    intros j. unfold t_mid. split; intros H; nia. }
  assert (K : length l = (k + length l2)%nat).
  { rewrite L. apply timeline_length_unique; [assumption|].
    intros j. rewrite L2. split; intros H.
    - destruct (Nat.lt_ge_cases j k) as [Hj|Hj].
      + unfold t_mid in Hcut. nia.
      + assert (Hj2 : (j - k < timeline_length t_mid t_end t_delta)%nat) by lia.
        apply (timeline_length_lt _ _ _ _ Hd) in Hj2. unfold t_mid in Hj2. nia.
    - destruct (Nat.lt_ge_cases j k) as [Hj|Hj]; [lia|].
      assert (Hj2 : (j - k < timeline_length t_mid t_end t_delta)%nat); [|lia].
      apply (timeline_length_lt _ _ _ _ Hd). unfold t_mid. nia. }
  exists l1, l2. repeat split; try assumption.
  rewrite E. f_equal. apply (nth_ext _ _ 0 0).
  - rewrite length_app. lia.
  - intros j Hj. rewrite (N j Hj).
    destruct (Nat.lt_ge_cases j k) as [Hlt|Hge].
    + rewrite app_nth1 by lia. rewrite N1 by lia. reflexivity.
    + rewrite app_nth2 by lia. rewrite N2 by lia. unfold t_mid. nia.
Qed.

Lemma date_range_cut_witness :
  0 < 1000000 /\
  100000 + Z.of_nat 1 * 1000000 <= 2150000 /\
  exists before after,
    date_range 100000 (100000 + Z.of_nat 1 * 1000000) 1000000 = Ok before /\
    date_range (100000 + Z.of_nat 1 * 1000000) 2150000 1000000 = Ok after /\
    length before = 1%nat /\
    date_range 100000 2150000 1000000 = Ok (before ++ after).
Proof.
  assert (H1 : 0 < 1000000) by lia.
  assert (H2 : 100000 + Z.of_nat 1 * 1000000 <= 2150000) by (simpl; lia).
  exact (conj H1 (conj H2 (date_range_cut 100000 2150000 1000000 1 H1 H2))).
Defined.

(** *** time_to_float *)

(** X18: without a reference [time_to_float] measures from the first
    entry, so its result does not change when the whole series is shifted
    in time (an empty series raises [IndexError] either way). *)
Theorem time_to_float_shift_invariant t_arr shift :
  time_to_float_default (map (fun t => t + shift) t_arr) = time_to_float_default t_arr.
Proof.
  destruct t_arr as [|t0 ts]; [reflexivity|].
  unfold time_to_float_default. cbn [map]. f_equal.
  unfold time_to_float. change (t0 + shift :: map (fun t => t + shift) ts)
    with (map (fun t => t + shift) (t0 :: ts)).
  rewrite map_map. apply map_ext. intros t. f_equal. lia.
Qed.

(** X19: on a non-empty series [time_to_float] without a reference
    returns one number per entry, the first of them 0, in seconds since
    the first entry, and keeps the order of the entries. *)
Theorem time_to_float_default_origin t_arr :
  t_arr <> [] ->
  exists t_w,
    time_to_float_default t_arr = Ok t_w /\
    length t_w = length t_arr /\
    (hd 0 t_w == 0)%Q /\
    (forall i, (i < length t_arr)%nat ->
       (nth i t_w 0 * 1000000 == inject_Z (nth i t_arr 0%Z - hd 0%Z t_arr))%Q) /\
    (forall i j, (i < length t_arr)%nat -> (j < length t_arr)%nat ->
       nth i t_arr 0 <= nth j t_arr 0 -> (nth i t_w 0 <= nth j t_w 0)%Q).
Proof.
  intros Hne. destruct t_arr as [|t0 ts]; [contradiction|].
  eexists. split; [reflexivity|]. unfold time_to_float.
  split; [apply length_map|].
  split; [cbn [map hd]; unfold Qeq, total_seconds; cbn [Qnum Qden]; lia|].
  assert (Hn : forall i, (i < length (t0 :: ts))%nat ->
               nth i (map (fun t => total_seconds (t - t0)) (t0 :: ts)) 0%Q
               = total_seconds (nth i (t0 :: ts) 0 - t0)).
  { intros i Hi.
    rewrite (nth_indep _ 0%Q (total_seconds (0 - t0))) by (rewrite length_map; exact Hi).
    apply (map_nth (fun t => total_seconds (t - t0))). }
  split.
  - intros i Hi. rewrite (Hn i Hi). cbn [hd].
    unfold Qeq, Qmult, total_seconds, inject_Z; cbn [Qnum Qden]. lia.
  - intros i j Hi Hj Hle. rewrite (Hn i Hi), (Hn j Hj).
    apply total_seconds_le. lia.
Qed.

Lemma time_to_float_default_origin_witness :
  session_weight_t <> [] /\
  exists t_w,
    time_to_float_default session_weight_t = Ok t_w /\
    length t_w = length session_weight_t /\
    (hd 0 t_w == 0)%Q /\
    (forall i, (i < length session_weight_t)%nat ->
       (nth i t_w 0 * 1000000
        == inject_Z (nth i session_weight_t 0%Z - hd 0%Z session_weight_t))%Q) /\
    (forall i j, (i < length session_weight_t)%nat ->
       (j < length session_weight_t)%nat ->
       nth i session_weight_t 0 <= nth j session_weight_t 0 ->
       (nth i t_w 0 <= nth j t_w 0)%Q).
Proof.
  assert (H1 : session_weight_t <> []) by discriminate.
  exact (conj H1 (time_to_float_default_origin session_weight_t H1)).
Defined.

(** *** get_nonempty_input *)

Lemma input_loop_nonempty out stdin prompts :
  out <> String.EmptyString ->
  input_loop out stdin prompts = Entered out stdin prompts.
Proof.
  intros Hne. destruct out; [contradiction|]. destruct stdin; reflexivity.
Qed.

Lemma input_loop_empty stdin prompts :
  input_loop String.EmptyString stdin prompts
  = match stdin with
    | [] => EOFError
    | line :: stdin' => input_loop line stdin' (S prompts)
    end.
Proof. destruct stdin; reflexivity. Qed.

(** X20: [get_nonempty_input] returns the first line of standard input
    that is not empty, after one prompt for it and one for each empty
    line before it, and leaves the lines after it unread; it never returns
    the empty string, and it ends with [EOFError] exactly when every line
    of standard input is empty. *)
Theorem get_nonempty_input_first_nonempty stdin :
  (forall out unread prompts,
     get_nonempty_input stdin = Entered out unread prompts <->
     out <> String.EmptyString /\
     exists skipped,
       prompts = S skipped /\
       stdin = repeat String.EmptyString skipped ++ out :: unread) /\
  (get_nonempty_input stdin = EOFError <-> Forall (eq String.EmptyString) stdin).
Proof.
  unfold get_nonempty_input.
  assert (G : forall p,
    (forall out unread prompts,
       input_loop String.EmptyString stdin p = Entered out unread prompts <->
       out <> String.EmptyString /\
       exists skipped,
         prompts = (p + S skipped)%nat /\
         stdin = repeat String.EmptyString skipped ++ out :: unread) /\
    (input_loop String.EmptyString stdin p = EOFError
     <-> Forall (eq String.EmptyString) stdin)).
  { induction stdin as [|line rest IH]; intros p; rewrite input_loop_empty.
    - split.
      + intros out unread prompts. split; [discriminate|].
        intros (_ & [|k] & _ & H); discriminate.
      + split; [constructor|reflexivity].
    - destruct (String.string_dec line String.EmptyString) as [->|Hline].
      + destruct (IH (S p)) as [IH1 IH2]. split.
        * intros out unread prompts. rewrite IH1. split.
          -- intros (Ho & k & -> & ->). split; [assumption|].
             exists (S k). split; [lia|reflexivity].
          -- intros (Ho & [|k] & -> & H); cbn [repeat app] in H.
             ++ injection H as E _. congruence.
             ++ injection H as ->. split; [assumption|].
                exists k. split; [lia|reflexivity].
        * rewrite IH2. split; intros H; [constructor; auto|].
          inversion H; assumption.
      + rewrite (input_loop_nonempty _ _ _ Hline). split.
        * intros out unread prompts. split.
          -- intros [= <- <- <-]. split; [assumption|].
             exists 0%nat. split; [lia|reflexivity].
          -- intros (Ho & [|k] & -> & H); cbn [repeat app] in H.
             ++ injection H as <- <-. f_equal. lia.
             ++ injection H as E _. congruence.
        * split; [discriminate|]. intros H. inversion H; subst. congruence. }
  destruct (G 0%nat) as [G1 G2]. split; [|exact G2].
  intros out unread prompts. rewrite G1. reflexivity.
Qed.

(** *** HSVthreshHelper *)

Lemma hue_selected_wrapped l h :
  0 <= h <= 179 -> 0 <= H_min l <= 178 -> 0 <= H_max l <= 179 ->
  H_max l < H_min l ->
  hue_selected l h = true <->
  H_min l <= h \/ (h <= H_max l /\ (H_min l <= h + 76 \/ h + 76 <= H_max l)).
Proof.
  intros Hh Hlo Hhi Hw.
  unfold hue_selected, hsv_offset, h_offset, inRange, uint8_sub.
  rewrite andb_true_iff, !Z.leb_le.
  destruct (Z.gtb_spec (H_min l) (H_max l)) as [_|]; [|lia].
  destruct (Z.gtb_spec (H_max l + 1) 0) as [_|]; [|lia].
  replace (H_max l - (H_max l + 1)) with (-1) by lia.
  change (-1 mod 180) with 179.
  destruct (Z.lt_ge_cases h (H_max l + 1)) as [Hlt|Hge].
  - assert (E : (h - (H_max l + 1)) mod 256 = h - (H_max l + 1) + 256)
      by (symmetry; apply (Z.mod_unique _ _ (-1)); lia).
    rewrite E.
    destruct (Z.lt_ge_cases (h - (H_max l + 1)) (-76)) as [Hfar|Hnear].
    + rewrite Z.mod_small by lia. lia.
    + assert (E2 : (h - (H_max l + 1) + 256) mod 180 = h - (H_max l + 1) + 76)
        by (symmetry; apply (Z.mod_unique _ _ 1); lia).
      rewrite E2. lia.
  - rewrite (Z.mod_small (h - (H_max l + 1)) 256) by lia.
    rewrite Z.mod_small by lia. lia.
Qed.

(** X21: the hue test of the mask, for slider values and a hue in their
    OpenCV ranges.  With [H_min <= H_max] it selects the hues from
    [H_min] to [H_max].  With [H_min > H_max] it selects the hues from
    [H_min] upwards, but of the hues up to [H_max] only those [h] with
    [H_min <= h + 76] or [h + 76 <= H_max]: the subtraction of the
    offset wraps modulo 256 before the reduction modulo 180. *)
Theorem hue_selected_spec l h :
  0 <= h <= 179 ->
  0 <= H_min l <= 178 ->
  0 <= H_max l <= 179 ->
  hue_selected l h = true <->
  (H_min l <= H_max l /\ H_min l <= h <= H_max l) \/
  (H_max l < H_min l /\
   (H_min l <= h \/
    (h <= H_max l /\ (H_min l <= h + 76 \/ h + 76 <= H_max l)))).
Proof.
  intros Hh Hlo Hhi.
  destruct (Z.le_gt_cases (H_min l) (H_max l)) as [Hn|Hw].
  - unfold hue_selected, hsv_offset, h_offset, inRange.
    destruct (Z.gtb_spec (H_min l) (H_max l)) as [|_]; [lia|].
    cbn [Z.gtb Z.compare].
    rewrite andb_true_iff, !Z.leb_le, Z.sub_0_r, Z.mod_small by lia. lia.
  - rewrite (hue_selected_wrapped l h Hh Hlo Hhi Hw). lia.
Qed.

Lemma hue_selected_spec_witness :
  0 <= 5 <= 179 /\
  0 <= H_min red_limits <= 178 /\
  0 <= H_max red_limits <= 179 /\
  (hue_selected red_limits 5 = true <->
   (H_min red_limits <= H_max red_limits /\
    H_min red_limits <= 5 <= H_max red_limits) \/
   (H_max red_limits < H_min red_limits /\
    (H_min red_limits <= 5 \/
     (5 <= H_max red_limits /\
      (H_min red_limits <= 5 + 76 \/ 5 + 76 <= H_max red_limits))))).
Proof.
  assert (H1 : 0 <= 5 <= 179) by lia.
  assert (H2 : 0 <= H_min red_limits <= 178) by (simpl; lia).
  assert (H3 : 0 <= H_max red_limits <= 179) by (simpl; lia).
  exact (conj H1 (conj H2 (conj H3 (hue_selected_spec red_limits 5 H1 H2 H3)))).
Defined.

(** X22: with [H_min > H_max] the hue test selects the wrap-around range
    (the hues from [H_min] up together with the hues up to [H_max])
    exactly when [H_min <= 76] or [H_min = H_max + 1]; for all other
    slider values some hue up to [H_max] is left out. *)
Theorem hue_wrap_around_exact_iff l :
  0 <= H_min l <= 178 ->
  0 <= H_max l <= 179 ->
  H_max l < H_min l ->
  (forall h, 0 <= h <= 179 ->
     (hue_selected l h = true <-> H_min l <= h \/ h <= H_max l)) <->
  (H_min l <= 76 \/ H_min l = H_max l + 1).
Proof.
  intros Hlo Hhi Hw. split.
  - intros Hall.
    destruct (Z.le_gt_cases (H_min l) 76) as [|H77]; [left; assumption|].
    destruct (Z.eq_dec (H_min l) (H_max l + 1)) as [|Hgap]; [right; assumption|].
    exfalso.
    set (h := Z.max (H_max l + 1) 76 - 76).
    assert (Hh : 0 <= h <= 179) by (unfold h; lia).
    pose proof (Hall h Hh) as H1.
    pose proof (hue_selected_wrapped l h Hh Hlo Hhi Hw) as H2.
    assert (H3 : H_min l <= h \/ h <= H_max l) by (right; unfold h; lia).
    apply H1, H2 in H3. unfold h in H3. lia.
  - intros Hok h Hh.
    rewrite (hue_selected_wrapped l h Hh Hlo Hhi Hw). lia.
Qed.

Lemma hue_wrap_around_exact_iff_witness :
  0 <= H_min red_limits <= 178 /\
  0 <= H_max red_limits <= 179 /\
  H_max red_limits < H_min red_limits /\
  ((forall h, 0 <= h <= 179 ->
      (hue_selected red_limits h = true
       <-> H_min red_limits <= h \/ h <= H_max red_limits)) <->
   (H_min red_limits <= 76 \/ H_min red_limits = H_max red_limits + 1)).
Proof.
  assert (H1 : 0 <= H_min red_limits <= 178) by (simpl; lia).
  assert (H2 : 0 <= H_max red_limits <= 179) by (simpl; lia).
  assert (H3 : H_max red_limits < H_min red_limits) by (simpl; lia).
  exact (conj H1 (conj H2 (conj H3 (hue_wrap_around_exact_iff red_limits H1 H2 H3)))).
Defined.
